(** * A local static-file server launcher: [scripts/local_server.py]

    The script probes for a free TCP port, starts a threading HTTP server
    on it, waits until the server accepts connections, opens a browser and
    then blocks until the user interrupts it.

    The program is modelled as it is written: every function of the
    script is a computation in a small state-and-exception monad over a
    [World] (a logical clock counting the TCP connects made so far, and the
    chronological trace of the effects performed).  What the operating
    system and the user do is an [Env]: the answer to every connect, the
    state of the file system, the outcome of the browser launch and what
    happens at each turn of the final polling loop. *)

From Stdlib Require Import ZArith List String Ascii Bool Lia DecimalString.
Import ListNotations.
Local Open Scope string_scope.
Local Open Scope Z_scope.

(** ** Python values *)

Definition Path := string.

(** [str(n)] for a Python [int]. *)
Definition str (n : Z) : string := NilZero.string_of_int (Z.to_int n).

(** [range(a, b)] over integers: [a, a+1, ..., b-1], empty when [b <= a]. *)
Definition range (a b : Z) : list Z :=
  map (fun i => a + Z.of_nat i) (seq 0 (Z.to_nat (b - a))).

(** [c in chars], for a character and the string of characters to strip. *)
Fixpoint char_in (c : ascii) (chars : string) : bool :=
  match chars with
  | EmptyString => false
  | String d rest => if Ascii.eqb c d then true else char_in c rest
  end.

(** [s.lstrip(chars)]: drop leading characters while they are in [chars].
    Strings are byte strings here; '/' is a single byte that occurs in no
    multi-byte UTF-8 sequence, so stripping bytes and stripping code points
    agree for [lstrip('/')]. *)
Fixpoint lstrip (chars : string) (s : string) : string :=
  match s with
  | EmptyString => EmptyString
  | String c rest => if char_in c chars then lstrip chars rest else s
  end.

(** [s * n] for a string [s]. *)
Fixpoint str_mul (s : string) (n : nat) : string :=
  match n with
  | O => EmptyString
  | S n' => s ++ str_mul s n'
  end.

Definition newline : string := String "010"%char EmptyString.

(** [needle in haystack]. *)
Definition contains (haystack needle : string) : bool :=
  match String.index 0 needle haystack with
  | Some _ => true
  | None => false
  end.

(** ** Exceptions, effects and the world *)

Inductive exn : Type :=
| RuntimeError (msg : string)
| SystemExit (msg : string)
| NotADirectoryError (p : Path)
| FileNotFoundError (p : Path)
| KeyboardInterrupt.

(** Observable effects.  Delays are in milliseconds ([0.15] s is [150]),
    the join timeout is in seconds. *)
Inductive event : Type :=
| SockOpen                                      (* socket.socket(AF_INET, SOCK_STREAM) *)
| SockOpt                                       (* setsockopt(SOL_SOCKET, SO_REUSEADDR, 1) *)
| Connect (host : string) (port : Z) (rc : Z)   (* connect_ex((host, port)) returned rc *)
| SockClose                                     (* the probe socket is closed *)
| Sleep (ms : Z)
| Chdir (p : Path)
| PrintLine (line : string)
| ServerBind (host : string) (port : Z)         (* ThreadingHTTPServer((host, port), handler) *)
| ThreadStart                                   (* thread.start(): serve_forever in background *)
| BrowserOpen (url : string) (opened : bool)    (* webbrowser.open(url, new=2, autoraise=True) *)
| ServerShutdown                                (* server.shutdown() *)
| ServerClose                                   (* server.server_close() *)
| ThreadJoin (timeout_s : Z).

(** What one turn of [while thread.is_alive(): time.sleep(0.5)] meets. *)
Inductive loop_signal : Type :=
| StillAlive      (* the thread is alive and the sleep completes *)
| ThreadExited    (* is_alive() is False *)
| Interrupted.    (* Ctrl+C: KeyboardInterrupt is raised in the loop *)

(** The answers of the operating system and of the user, on the paths
    the script is written for: [connect_ex] is asked about TCP ports
    (0..65535) and answers with an error code, [time.sleep] is given a
    delay that is not negative, a root that is a directory can be entered,
    the server can be bound to a port that refused the probe, and Ctrl+C
    arrives while [main] is in its final loop. *)
Record Env : Type := mkEnv {
  (* [connect_ex t (host, port)]: the error code of the connect issued when
     [t] connects have been made before; 0 means the connect succeeded *)
  connect_ex : nat -> string * Z -> Z;
  resolve : Path -> Path;            (* Path.resolve() *)
  path_exists : Path -> bool;        (* Path.exists() *)
  is_dir : Path -> bool;             (* the path names a directory *)
  browser_launch : string -> bool;   (* what webbrowser.open returns *)
  signal : nat -> loop_signal        (* the i-th turn of the final loop *)
}.

Record World : Type := mkWorld {
  clock : nat;            (* connects made so far *)
  trace : list event      (* effects so far, oldest first *)
}.

(** How a computation ends: with a value, with an exception, or still
    blocked in the final loop when the fuel of the model runs out. *)
Inductive outcome (A : Type) : Type :=
| Return (a : A)
| Raise (e : exn)
| Pending.
Arguments Return {A} a.
Arguments Raise {A} e.
Arguments Pending {A}.

Definition M (A : Type) : Type := World -> outcome A * World.

Definition ret {A} (a : A) : M A := fun w => (Return a, w).

Definition raise {A} (e : exn) : M A := fun w => (Raise e, w).

Definition pending {A} : M A := fun w => (Pending, w).

Definition bind {A B} (m : M A) (k : A -> M B) : M B :=
  fun w =>
    match m w with
    | (Return a, w') => k a w'
    | (Raise e, w') => (Raise e, w')
    | (Pending, w') => (Pending, w')
    end.

Declare Scope py_scope.
Delimit Scope py_scope with py.
Notation "x <- c1 ;; c2" := (bind c1 (fun x => c2))
  (at level 100, c1 at next level, right associativity) : py_scope.
Notation "c1 ;; c2" := (bind c1 (fun _ => c2))
  (at level 100, right associativity) : py_scope.
Local Open Scope py_scope.

Definition emit (e : event) : M unit :=
  fun w => (Return tt, mkWorld (clock w) (trace w ++ [e])%list).

(** [try: body finally: final].  The final block runs once the body has
    returned or raised; an exception of the final block replaces the
    body's outcome. *)
Definition try_finally {A} (body : M A) (final : M unit) : M A :=
  fun w =>
    match body w with
    | (Pending, w') => (Pending, w')
    | (r, w') =>
        match final w' with
        | (Return _, w'') => (r, w'')
        | (Raise e, w'') => (Raise e, w'')
        | (Pending, w'') => (Pending, w'')
        end
    end.

(** [try: body except KeyboardInterrupt: handler]. *)
Definition except_KeyboardInterrupt (body : M unit) (handler : M unit) : M unit :=
  fun w =>
    match body w with
    | (Raise KeyboardInterrupt, w') => handler w'
    | rw => rw
    end.

Definition localhost : string := "127.0.0.1".

Section Program.

Variable env : Env.

(** ** Library calls *)

(** [sock.connect_ex((host, port))]: asks the environment and advances the
    clock. *)
Definition sock_connect_ex (host : string) (port : Z) : M Z :=
  fun w =>
    let rc := connect_ex env (clock w) (host, port) in
    (Return rc, mkWorld (S (clock w)) (trace w ++ [Connect host port rc])%list).

(** [with contextlib.closing(socket.socket(AF_INET, SOCK_STREAM)) as sock: body] *)
Definition with_closing_socket {A} (body : M A) : M A :=
  emit SockOpen ;; try_finally body (emit SockClose).

(** [os.chdir(p)]: fails on a path that is missing or not a directory. *)
Definition os_chdir (p : Path) : M unit :=
  if is_dir env p then emit (Chdir p)
  else if path_exists env p then raise (NotADirectoryError p)
  else raise (FileNotFoundError p).

Definition print (line : string) : M unit := emit (PrintLine line).

Definition webbrowser_open (url : string) : M bool :=
  let opened := browser_launch env url in
  emit (BrowserOpen url opened) ;; ret opened.

(** ** [find_available_port] (lines 19-25) *)

Definition PortExhausted (start_port : Z) : exn :=
  RuntimeError ("在 " ++ str start_port ++ " 附近找不到可用端口").

Fixpoint find_available_port_loop (start_port : Z) (ports : list Z) : M Z :=
  match ports with
  | [] => raise (PortExhausted start_port)
  | port :: rest =>
      rc <- with_closing_socket
              (emit SockOpt ;; sock_connect_ex localhost port) ;;
      if negb (rc =? 0) then ret port
      else find_available_port_loop start_port rest
  end.

Definition find_available_port (start_port tries : Z) : M Z :=
  find_available_port_loop start_port (range start_port (start_port + tries)).

Definition default_tries : Z := 25.

(** ** [wait_until_listening] (lines 28-34) *)

Definition StartupTimeout : exn := RuntimeError "服务器启动超时".

Fixpoint wait_until_listening_loop (port : Z) (turns : nat) (delay : Z) : M unit :=
  match turns with
  | O => raise StartupTimeout
  | S turns' =>
      rc <- with_closing_socket (sock_connect_ex localhost port) ;;
      if rc =? 0 then ret tt
      else (emit (Sleep delay) ;; wait_until_listening_loop port turns' delay)
  end.

(** [for _ in range(retries)] runs [max(retries, 0)] times. *)
Definition wait_until_listening (port retries delay : Z) : M unit :=
  wait_until_listening_loop port (Z.to_nat retries) delay.

Definition default_retries : Z := 40.
Definition default_delay : Z := 150.

(** ** [main] (lines 48-94) *)

Record Args : Type := mkArgs {
  root : Path;       (* --root *)
  entry : string;    (* --entry, default "index.html" *)
  port : Z           (* --port, default 8000 *)
}.

Definition default_entry : string := "index.html".
Definition default_port : Z := 8000.

(** Line 66: [f"http://localhost:{port}/{args.entry.lstrip('/')}"]. *)
Definition launcher_url (port : Z) (entry : string) : string :=
  "http://localhost:" ++ str port ++ "/" ++ lstrip "/" entry.

Definition root_missing_message (web_root : Path) : string :=
  "目录不存在：" ++ web_root.

Definition browser_hint : string :=
  "浏览器已尝试自动打开，若未成功可手动复制访问地址。".

Definition interrupt_message : string :=
  newline ++ "收到退出指令，正在关闭服务器...".

Definition goodbye_message : string := "服务器已关闭，再见！".

(** Lines 60-81: validate the root, pick the port, build the URL, create
    the server, print the banner, start the serving thread and wait until
    the port accepts connections.  The handler class of [build_handler]
    (lines 37-45) configures the library's request handler with
    [directory=str(root)] and a log line per request; answering requests
    is the library's work and has no part in the launcher's control flow,
    so the server appears here through its creation, start, shutdown and
    close only. *)
Definition startup (args : Args) : M (Z * string) :=
  let web_root := resolve env (root args) in
  if negb (path_exists env web_root)
  then raise (SystemExit (root_missing_message web_root))
  else
    os_chdir web_root ;;
    port <- find_available_port (port args) default_tries ;;
    let url := launcher_url port (entry args) in
    emit (ServerBind localhost port) ;;
    print (str_mul "-" 60) ;;
    print ("静态目录：" ++ web_root) ;;
    print ("访问地址：" ++ url) ;;
    print "关闭方式：回到该窗口按 Ctrl+C 即可" ;;
    print (str_mul "-" 60) ;;
    emit ThreadStart ;;
    wait_until_listening port default_retries default_delay ;;
    ret (port, url).

(** Lines 82-83: open the browser and print the hint. *)
Definition open_browser (url : string) : M unit :=
  webbrowser_open url ;;
  print browser_hint.

(** Lines 86-87: [while thread.is_alive(): time.sleep(0.5)], from turn [i]
    on, for at most [fuel] turns. *)
Fixpoint alive_loop (fuel : nat) (i : nat) : M unit :=
  match fuel with
  | O => pending
  | S fuel' =>
      match signal env i with
      | ThreadExited => ret tt
      | Interrupted => raise KeyboardInterrupt
      | StillAlive => emit (Sleep 500) ;; alive_loop fuel' (S i)
      end
  end.

(** Lines 90-94: the [finally] block. *)
Definition shutdown_server : M unit :=
  emit ServerShutdown ;;
  emit ServerClose ;;
  emit (ThreadJoin 2) ;;
  print goodbye_message.

(** Lines 85-94. *)
Definition serve_until_interrupt (fuel : nat) : M unit :=
  try_finally
    (except_KeyboardInterrupt (alive_loop fuel 0) (print interrupt_message))
    shutdown_server.

Definition main (args : Args) (fuel : nat) : M unit :=
  started <- startup args ;;
  open_browser (snd started) ;;
  serve_until_interrupt fuel.

End Program.

(** ** The process around [main] (lines 97-98) *)

(** Exit status of the interpreter: 0 when [main] returns, 1 when
    [SystemExit] carries a message or an exception is left uncaught (an
    uncaught [KeyboardInterrupt] ends the process by SIGINT, which a shell
    reports as 130); none while [main] is still running. *)
Definition exit_status (r : outcome unit) : option Z :=
  match r with
  | Return _ => Some 0
  | Raise KeyboardInterrupt => Some 130
  | Raise _ => Some 1
  | Pending => None
  end.

(** What the interpreter writes to standard error for [SystemExit(msg)]. *)
Definition exit_message (r : outcome unit) : option string :=
  match r with
  | Raise (SystemExit msg) => Some msg
  | _ => None
  end.

(** ** Reading a trace *)

Definition connect_target (e : event) : option (string * Z) :=
  match e with
  | Connect host port _ => Some (host, port)
  | _ => None
  end.

(** The addresses connected to, in order. *)
Fixpoint connects (tr : list event) : list (string * Z) :=
  match tr with
  | [] => []
  | e :: rest =>
      match connect_target e with
      | Some a => a :: connects rest
      | None => connects rest
      end
  end.

(** The delays slept, in order. *)
Fixpoint sleeps (tr : list event) : list Z :=
  match tr with
  | [] => []
  | Sleep ms :: rest => ms :: sleeps rest
  | _ :: rest => sleeps rest
  end.

(** Events on the HTTP server and its thread. *)
Definition is_server_event (e : event) : bool :=
  match e with
  | ServerBind _ _ | ThreadStart | ServerShutdown | ServerClose | ThreadJoin _ => true
  | _ => false
  end.

(** What happened to the HTTP server and its thread, in order. *)
Definition server_events (tr : list event) : list event :=
  filter is_server_event tr.

(** The world once the events [evs] have followed. *)
Definition after (w : World) (evs : list event) : World :=
  mkWorld (clock w) (trace w ++ evs)%list.

(** Lines 69-79 as events: the server is created on the port, the banner
    is printed and the serving thread is started. *)
Definition server_start_events (web_root : Path) (port : Z) (url : string) : list event :=
  [ServerBind localhost port;
   PrintLine (str_mul "-" 60);
   PrintLine ("静态目录：" ++ web_root);
   PrintLine ("访问地址：" ++ url);
   PrintLine "关闭方式：回到该窗口按 Ctrl+C 即可";
   PrintLine (str_mul "-" 60);
   ThreadStart].

Definition initial_world : World := mkWorld 0 [].

(** ** Concrete environments *)

Definition ECONNREFUSED : Z := 111.

Definition sample_args : Args := mkArgs "/srv/site" default_entry default_port.

(** A directory is served, port 8000 is free when probed, the server
    accepts the first readiness connect, the browser opens and the user
    presses Ctrl+C during the third turn of the final loop. *)
Definition env_ready : Env :=
  mkEnv (fun t _ => match t with O => ECONNREFUSED | S _ => 0 end)
        (fun p => p) (fun _ => true) (fun _ => true) (fun _ => true)
        (fun i => match i with 2%nat => Interrupted | _ => StillAlive end).

(** As [env_ready], but no browser can be launched. *)
Definition env_no_browser : Env :=
  mkEnv (connect_ex env_ready) (resolve env_ready) (path_exists env_ready)
        (is_dir env_ready) (fun _ => false) (signal env_ready).

(** Every port accepts connections: the whole scanned range is occupied. *)
Definition env_all_busy : Env :=
  mkEnv (fun _ _ => 0)
        (fun p => p) (fun _ => true) (fun _ => true) (fun _ => true)
        (fun _ => StillAlive).

(** No connect ever succeeds: port 8000 is free, and the server never
    becomes reachable. *)
Definition env_never_ready : Env :=
  mkEnv (fun _ _ => ECONNREFUSED)
        (fun p => p) (fun _ => true) (fun _ => true) (fun _ => true)
        (fun _ => StillAlive).

(** Ports 8000 and 8001 are occupied, port 8002 is free. *)
Definition env_third_free : Env :=
  mkEnv (fun _ a => if snd a <? 8002 then 0 else ECONNREFUSED)
        (fun p => p) (fun _ => true) (fun _ => true) (fun _ => true)
        (fun _ => StillAlive).

(** The root path does not exist. *)
Definition env_no_root : Env :=
  mkEnv (fun _ _ => ECONNREFUSED)
        (fun p => p) (fun _ => false) (fun _ => false) (fun _ => true)
        (fun _ => StillAlive).

(** The root path exists and is a regular file. *)
Definition env_root_is_file : Env :=
  mkEnv (fun _ _ => ECONNREFUSED)
        (fun p => p) (fun _ => true) (fun _ => false) (fun _ => true)
        (fun _ => StillAlive).

(** As [env_ready], but the serving thread ends during the second turn
    of the final loop and nobody presses Ctrl+C. *)
Definition env_thread_dies : Env :=
  mkEnv (connect_ex env_ready) (resolve env_ready) (path_exists env_ready)
        (is_dir env_ready) (browser_launch env_ready)
        (fun i => match i with 1%nat => ThreadExited | _ => StillAlive end).

(** As [env_ready], but the thread stays alive and nobody presses Ctrl+C. *)
Definition env_idle : Env :=
  mkEnv (connect_ex env_ready) (resolve env_ready) (path_exists env_ready)
        (is_dir env_ready) (browser_launch env_ready)
        (fun _ => StillAlive).

(** ** More readings of a trace *)

(** The URLs handed to the browser, in order. *)
Fixpoint browser_opens (tr : list event) : list string :=
  match tr with
  | [] => []
  | BrowserOpen url _ :: rest => url :: browser_opens rest
  | _ :: rest => browser_opens rest
  end.

(** The lines written to standard output, in order. *)
Fixpoint printed (tr : list event) : list string :=
  match tr with
  | [] => []
  | PrintLine line :: rest => line :: printed rest
  | _ :: rest => printed rest
  end.

(** The events of a probe: its socket, the connect and the pause. *)
Definition is_probe_event (e : event) : bool :=
  match e with
  | SockOpen | SockOpt | Connect _ _ _ | SockClose | Sleep _ => true
  | _ => false
  end.

(** The discipline of the probe sockets along a trace, [open] telling
    whether a probe socket is open at its start: a socket is opened only
    when none is open, options are set and connects are made only on the
    open socket, a close closes the open socket, everything else happens
    while no probe socket is open, and none is open at the end. *)
Fixpoint probe_sockets_ok (open : bool) (tr : list event) : bool :=
  match tr with
  | [] => negb open
  | SockOpen :: rest => negb open && probe_sockets_ok true rest
  | SockClose :: rest => open && probe_sockets_ok false rest
  | SockOpt :: rest => open && probe_sockets_ok true rest
  | Connect _ _ _ :: rest => open && probe_sockets_ok true rest
  | _ :: rest => negb open && probe_sockets_ok false rest
  end.

(** * Properties *)

(** ** Traces *)

Lemma connects_app (tr1 tr2 : list event) :
  connects (tr1 ++ tr2) = (connects tr1 ++ connects tr2)%list.
Proof.
  induction tr1 as [|e tr1 IH]; simpl; [reflexivity|].
  destruct (connect_target e); simpl; now rewrite IH.
Qed.

Lemma sleeps_app (tr1 tr2 : list event) :
  sleeps (tr1 ++ tr2) = (sleeps tr1 ++ sleeps tr2)%list.
Proof.
  induction tr1 as [|e tr1 IH]; simpl; [reflexivity|].
  destruct e; simpl; now rewrite IH.
Qed.

Lemma server_events_app (tr1 tr2 : list event) :
  server_events (tr1 ++ tr2) = (server_events tr1 ++ server_events tr2)%list.
Proof. apply filter_app. Qed.

Lemma server_events_sleeps (ms : Z) (k : nat) :
  server_events (repeat (Sleep ms) k) = [].
Proof. induction k as [|k IH]; [reflexivity|exact IH]. Qed.

Lemma after_nil (w : World) : after w [] = w.
Proof. destruct w as [c tr]. unfold after; cbn. now rewrite app_nil_r. Qed.

Lemma after_after (w : World) (evs1 evs2 : list event) :
  after (after w evs1) evs2 = after w (evs1 ++ evs2).
Proof. unfold after; cbn. now rewrite app_assoc. Qed.

Lemma range_length (a b : Z) : List.length (range a b) = Z.to_nat (b - a).
Proof. unfold range. now rewrite length_map, length_seq. Qed.

Lemma nth_map_seq {A} (f : nat -> A) (n s k : nat) (d : A) :
  (k < n)%nat -> nth k (map f (seq s n)) d = f (s + k)%nat.
Proof.
  revert s k. induction n as [|n IH]; intros s k Hk; [lia|].
  destruct k as [|k]; cbn.
  - now rewrite Nat.add_0_r.
  - rewrite IH by lia. f_equal. lia.
Qed.

Lemma range_nth (a b : Z) (k : nat) :
  (k < Z.to_nat (b - a))%nat -> nth k (range a b) 0 = a + Z.of_nat k.
Proof. intros Hk. unfold range. now rewrite nth_map_seq. Qed.

(** ** Strings *)

Lemma substring_prefix (s post : string) :
  substring 0 (String.length s) (s ++ post) = s.
Proof.
  induction s as [|c s IH]; cbn.
  - now destruct post.
  - now rewrite IH.
Qed.

Lemma substring_infix (pre s post : string) :
  substring (String.length pre) (String.length s) (pre ++ s ++ post) = s.
Proof.
  induction pre as [|c pre IH]; cbn.
  - apply substring_prefix.
  - exact IH.
Qed.

Lemma contains_infix (pre s post : string) :
  contains (pre ++ s ++ post) s = true.
Proof.
  unfold contains.
  destruct (String.index 0 s (pre ++ s ++ post)) eqn:Hidx; [reflexivity|].
  exfalso. destruct s as [|c s].
  - apply index_correct4 in Hidx. lia.
  - apply (index_correct3 0 (String.length pre)) in Hidx.
    + apply Hidx, substring_infix.
    + discriminate.
    + lia.
Qed.

Lemma lstrip_slash_spec (e : string) :
  exists (k : nat),
    e = str_mul "/" k ++ lstrip "/" e /\
    forall rest, lstrip "/" e <> String "/" rest.
Proof.
  induction e as [|c e IH].
  - exists O. split; [reflexivity|discriminate].
  - cbn [lstrip char_in].
    destruct (Ascii.eqb c "/") eqn:Hc.
    + apply Ascii.eqb_eq in Hc. subst c.
      destruct IH as (k & Hk & Hrest).
      exists (S k). split; [|exact Hrest].
      cbn. now rewrite <- Hk.
    + exists O. split; [reflexivity|].
      intros rest Heq. injection Heq as Heq _. subst c.
      now rewrite Ascii.eqb_refl in Hc.
Qed.

(** The [j+1]-th connect after clock [c] is the [j]-th after [c+1]. *)
Ltac shift_clock c j :=
  replace (c + S j)%nat with (S c + j)%nat by lia.

Section Facts.

Variable env : Env.

(** One turn of the scan of [find_available_port]. *)
Lemma find_available_port_loop_cons (start_port p : Z) (rest : list Z) (w : World) :
  find_available_port_loop env start_port (p :: rest) w =
  let rc := connect_ex env (clock w) (localhost, p) in
  let w1 := mkWorld (S (clock w))
              (trace w ++ [SockOpen; SockOpt; Connect localhost p rc; SockClose])%list in
  if negb (rc =? 0) then (Return p, w1)
  else find_available_port_loop env start_port rest w1.
Proof.
  cbn [find_available_port_loop]. unfold bind at 1.
  unfold with_closing_socket, bind, try_finally, emit, sock_connect_ex; cbn.
  rewrite <- !app_assoc; cbn.
  destruct (connect_ex env (clock w) (localhost, p) =? 0); reflexivity.
Qed.

Lemma find_available_port_loop_spec (start_port : Z) (ports : list Z) :
  forall w : World,
    let probe k := connect_ex env (clock w + k) (localhost, nth k ports 0) in
    match find_available_port_loop env start_port ports w with
    | (Return q, w') =>
        exists k : nat,
          (k < List.length ports)%nat /\ q = nth k ports 0 /\
          probe k <> 0 /\ (forall j, (j < k)%nat -> probe j = 0) /\
          clock w' = (clock w + S k)%nat /\
          connects (trace w') =
            (connects (trace w) ++ map (pair localhost) (firstn (S k) ports))%list
    | (Raise e, w') =>
        e = PortExhausted start_port /\
        (forall j, (j < List.length ports)%nat -> probe j = 0) /\
        clock w' = (clock w + List.length ports)%nat /\
        connects (trace w') = (connects (trace w) ++ map (pair localhost) ports)%list
    | (Pending, _) => False
    end.
Proof.
  induction ports as [|p rest IH]; intros w; cbn zeta.
  - cbn. repeat split; try lia. now rewrite app_nil_r.
  - rewrite find_available_port_loop_cons; cbn zeta.
    destruct (connect_ex env (clock w) (localhost, p) =? 0) eqn:Hrc; cbn [negb].
    + apply Z.eqb_eq in Hrc.
      specialize (IH (mkWorld (S (clock w))
        (trace w ++ [SockOpen; SockOpt;
                     Connect localhost p (connect_ex env (clock w) (localhost, p));
                     SockClose])%list)).
      cbn zeta in IH; cbn [clock trace] in IH.
      destruct (find_available_port_loop env start_port rest _) as [[q|e|] w'].
      * destruct IH as (k & Hk & Hq & Hfail & Hbefore & Hclock & Htrace).
        exists (S k). cbn [List.length nth firstn].
        repeat split.
        -- lia.
        -- exact Hq.
        -- shift_clock (clock w) k. exact Hfail.
        -- intros [|j] Hj.
           ++ now rewrite Nat.add_0_r.
           ++ shift_clock (clock w) j.
              apply Hbefore; lia.
        -- lia.
        -- rewrite Htrace, connects_app. cbn. now rewrite <- app_assoc.
      * destruct IH as (He & Hall & Hclock & Htrace).
        cbn [List.length nth].
        repeat split.
        -- exact He.
        -- intros [|j] Hj.
           ++ now rewrite Nat.add_0_r.
           ++ shift_clock (clock w) j.
              apply Hall; lia.
        -- lia.
        -- rewrite Htrace, connects_app. cbn. now rewrite <- app_assoc.
      * exact IH.
    + apply Z.eqb_neq in Hrc.
      exists O. cbn [List.length nth firstn clock trace].
      repeat split.
      * lia.
      * now rewrite Nat.add_0_r.
      * intros j Hj; lia.
      * lia.
      * rewrite connects_app. reflexivity.
Qed.

(** C1: for a range of TCP ports (all of [P, ..., P+N-1] within 0..65535,
    where [connect_ex] answers with an error code),
    [find_available_port] tries the ports [P, P+1, ..., P+N-1] in
    increasing order, each with one connect to localhost; it returns the
    first port whose connect fails (all lower ports of the range accepted
    the connect, and no higher port is tried), and when every connect of
    the range succeeds it raises instead of returning a port.  The budget
    used by the launcher is 25. *)
Theorem find_available_port_lowest_free :
  forall (start_port tries : Z) (w : World),
    0 <= start_port ->
    start_port + tries <= 65536 ->
    let ports := range start_port (start_port + tries) in
    let n := Z.to_nat tries in
    let probe (k : nat) :=
      connect_ex env (clock w + k) (localhost, start_port + Z.of_nat k) in
    List.length ports = n /\
    (forall k, (k < n)%nat -> nth k ports 0 = start_port + Z.of_nat k) /\
    default_tries = 25 /\
    match find_available_port env start_port tries w with
    | (Return q, w') =>
        exists k : nat,
          (k < n)%nat /\ q = start_port + Z.of_nat k /\
          probe k <> 0 /\ (forall j, (j < k)%nat -> probe j = 0) /\
          connects (trace w') =
            (connects (trace w) ++ map (pair localhost) (firstn (S k) ports))%list
    | (Raise e, w') =>
        e = PortExhausted start_port /\
        (forall j, (j < n)%nat -> probe j = 0) /\
        connects (trace w') = (connects (trace w) ++ map (pair localhost) ports)%list
    | (Pending, _) => False
    end.
Proof.
  intros start_port tries w _ _ ports n probe.
  assert (Hlen : List.length ports = n).
  { unfold ports, n. rewrite range_length. f_equal. lia. }
  assert (Hnth : forall k, (k < n)%nat -> nth k ports 0 = start_port + Z.of_nat k).
  { intros k Hk. unfold ports. apply range_nth.
    replace (start_port + tries - start_port) with tries by lia. exact Hk. }
  split; [exact Hlen|]. split; [exact Hnth|]. split; [reflexivity|].
  unfold find_available_port. fold ports.
  pose proof (find_available_port_loop_spec start_port ports w) as H.
  cbn zeta in H.
  destruct (find_available_port_loop env start_port ports w) as [[q|e|] w'].
  - destruct H as (k & Hk & Hq & Hfail & Hbefore & _ & Htrace).
    rewrite Hlen in Hk.
    exists k. split; [exact Hk|]. split; [now rewrite Hq, Hnth|].
    split; [unfold probe; now rewrite <- Hnth|].
    split; [|exact Htrace].
    intros j Hj. unfold probe. rewrite <- Hnth by lia. now apply Hbefore.
  - destruct H as (He & Hall & _ & Htrace).
    split; [exact He|]. split; [|exact Htrace].
    intros j Hj. unfold probe. rewrite <- Hnth by lia. apply Hall. now rewrite Hlen.
  - exact H.
Qed.

(** One turn of the polling of [wait_until_listening]. *)
Lemma wait_until_listening_loop_S (port : Z) (turns : nat) (delay : Z) (w : World) :
  wait_until_listening_loop env port (S turns) delay w =
  let rc := connect_ex env (clock w) (localhost, port) in
  if rc =? 0
  then (Return tt,
        mkWorld (S (clock w))
          (trace w ++ [SockOpen; Connect localhost port rc; SockClose])%list)
  else wait_until_listening_loop env port turns delay
         (mkWorld (S (clock w))
            (trace w ++ [SockOpen; Connect localhost port rc; SockClose; Sleep delay])%list).
Proof.
  cbn [wait_until_listening_loop]. unfold bind at 1.
  unfold with_closing_socket, bind, try_finally, emit, sock_connect_ex; cbn.
  rewrite <- !app_assoc; cbn.
  destruct (connect_ex env (clock w) (localhost, port) =? 0); [reflexivity|].
  cbn. rewrite <- !app_assoc. reflexivity.
Qed.

Lemma wait_until_listening_loop_spec (port : Z) (delay : Z) (turns : nat) :
  forall w : World,
    let attempt k := connect_ex env (clock w + k) (localhost, port) in
    match wait_until_listening_loop env port turns delay w with
    | (Return _, w') =>
        exists k : nat,
          (k < turns)%nat /\ attempt k = 0 /\
          (forall j, (j < k)%nat -> attempt j <> 0) /\
          clock w' = (clock w + S k)%nat /\
          connects (trace w') =
            (connects (trace w) ++ repeat (localhost, port) (S k))%list /\
          sleeps (trace w') = (sleeps (trace w) ++ repeat delay k)%list
    | (Raise e, w') =>
        e = StartupTimeout /\
        (forall j, (j < turns)%nat -> attempt j <> 0) /\
        clock w' = (clock w + turns)%nat /\
        connects (trace w') =
          (connects (trace w) ++ repeat (localhost, port) turns)%list /\
        sleeps (trace w') = (sleeps (trace w) ++ repeat delay turns)%list
    | (Pending, _) => False
    end.
Proof.
  induction turns as [|turns IH]; intros w; cbn zeta.
  - cbn. repeat split; try lia; now rewrite app_nil_r.
  - rewrite wait_until_listening_loop_S; cbn zeta.
    destruct (connect_ex env (clock w) (localhost, port) =? 0) eqn:Hrc.
    + apply Z.eqb_eq in Hrc.
      exists O. cbn [clock trace repeat].
      split; [lia|]. split; [now rewrite Nat.add_0_r|].
      split; [intros j Hj; lia|]. split; [lia|].
      rewrite connects_app, sleeps_app. cbn. now rewrite app_nil_r.
    + apply Z.eqb_neq in Hrc.
      specialize (IH (mkWorld (S (clock w))
        (trace w ++ [SockOpen;
                     Connect localhost port (connect_ex env (clock w) (localhost, port));
                     SockClose; Sleep delay])%list)).
      cbn zeta in IH; cbn [clock trace] in IH.
      rewrite connects_app, sleeps_app in IH. cbn in IH.
      destruct (wait_until_listening_loop env port turns delay _) as [[u|e|] w'].
      * destruct IH as (k & Hk & Hok & Hbefore & Hclock & Hconn & Hsleep).
        exists (S k).
        split; [lia|].
        split; [shift_clock (clock w) k; exact Hok|].
        split.
        { intros [|j] Hj.
          - now rewrite Nat.add_0_r.
          - shift_clock (clock w) j.
            apply Hbefore; lia. }
        split; [lia|].
        split.
        { rewrite Hconn, <- app_assoc. reflexivity. }
        { rewrite Hsleep, <- app_assoc. reflexivity. }
      * destruct IH as (He & Hall & Hclock & Hconn & Hsleep).
        split; [exact He|].
        split.
        { intros [|j] Hj.
          - now rewrite Nat.add_0_r.
          - shift_clock (clock w) j.
            apply Hall; lia. }
        split; [lia|].
        split.
        { rewrite Hconn, <- app_assoc. reflexivity. }
        { rewrite Hsleep, <- app_assoc. reflexivity. }
      * exact IH.
Qed.

(** C3: for a TCP port (within 0..65535, where [connect_ex] answers with
    an error code) and a delay that [time.sleep] accepts (not negative),
    [wait_until_listening] returns as soon as one connect to localhost
    on the port succeeds (after exactly the attempts up to and including
    the first success, having slept [delay] after each failed one), and it
    raises the startup-timeout error if and only if every attempt of the
    budget fails.  The launcher uses 40 attempts, 150 ms apart. *)
Theorem wait_until_listening_returns_or_times_out :
  forall (port retries delay : Z) (w : World),
    0 <= port <= 65535 ->
    0 <= delay ->
    let n := Z.to_nat retries in
    let attempt (k : nat) := connect_ex env (clock w + k) (localhost, port) in
    let run := wait_until_listening env port retries delay w in
    default_retries = 40 /\ default_delay = 150 /\
    match run with
    | (Return _, w') =>
        exists k : nat,
          (k < n)%nat /\ attempt k = 0 /\
          (forall j, (j < k)%nat -> attempt j <> 0) /\
          connects (trace w') =
            (connects (trace w) ++ repeat (localhost, port) (S k))%list /\
          sleeps (trace w') = (sleeps (trace w) ++ repeat delay k)%list
    | (Raise e, w') =>
        e = StartupTimeout /\
        connects (trace w') =
          (connects (trace w) ++ repeat (localhost, port) n)%list /\
        sleeps (trace w') = (sleeps (trace w) ++ repeat delay n)%list
    | (Pending, _) => False
    end /\
    (fst run = Raise StartupTimeout <->
     forall j, (j < n)%nat -> attempt j <> 0).
Proof.
  intros port retries delay w _ _ n attempt run.
  split; [reflexivity|]. split; [reflexivity|].
  unfold run, wait_until_listening. fold n.
  pose proof (wait_until_listening_loop_spec port delay n w) as H.
  cbn zeta in H.
  destruct (wait_until_listening_loop env port n delay w) as [[u|e|] w'].
  - destruct H as (k & Hk & Hok & Hbefore & _ & Hconn & Hsleep).
    split.
    + exists k. repeat split; assumption.
    + cbn [fst]. split; [discriminate|].
      intros Hall. exfalso. exact (Hall k Hk Hok).
  - destruct H as (He & Hall & _ & Hconn & Hsleep).
    split.
    + repeat split; assumption.
    + cbn [fst]. split; [intros _; exact Hall|]. intros _. now rewrite He.
  - destruct H.
Qed.

(** C2: when the resolved root path does not exist, [main] raises
    [SystemExit] with the message naming the path: the process exits with
    a non-zero status and that message, and nothing at all has been done
    before, so no socket was created or bound. *)
Theorem main_missing_root_exits_before_any_socket :
  forall (args : Args) (fuel : nat) (w : World),
    path_exists env (resolve env (root args)) = false ->
    main env args fuel w =
      (Raise (SystemExit (root_missing_message (resolve env (root args)))), w) /\
    exit_message (fst (main env args fuel w)) =
      Some (root_missing_message (resolve env (root args))) /\
    (exists status, exit_status (fst (main env args fuel w)) = Some status /\
                    status <> 0) /\
    server_events (trace (snd (main env args fuel w))) = server_events (trace w).
Proof.
  intros args fuel w Hmissing.
  assert (Hrun : main env args fuel w =
            (Raise (SystemExit (root_missing_message (resolve env (root args)))), w)).
  { unfold main, bind, startup. now rewrite Hmissing. }
  rewrite Hrun. cbn [fst snd exit_message exit_status].
  repeat split. exists 1. split; [reflexivity|lia].
Qed.

(** C10: the validation only asks whether the root exists.  For a root
    that exists and is not a directory, [main] does not take the
    [SystemExit] exit: it goes on to [os.chdir], whose [NotADirectoryError]
    leaves [main] uncaught, with no user-facing message. *)
Theorem main_root_not_directory_unhandled :
  forall (args : Args) (fuel : nat) (w : World),
    path_exists env (resolve env (root args)) = true ->
    is_dir env (resolve env (root args)) = false ->
    os_chdir env (resolve env (root args)) w =
      (Raise (NotADirectoryError (resolve env (root args))), w) /\
    main env args fuel w =
      (Raise (NotADirectoryError (resolve env (root args))), w) /\
    (forall msg, fst (main env args fuel w) <> Raise (SystemExit msg)) /\
    exit_message (fst (main env args fuel w)) = None.
Proof.
  intros args fuel w Hexists Hfile.
  assert (Hchdir : os_chdir env (resolve env (root args)) w =
            (Raise (NotADirectoryError (resolve env (root args))), w)).
  { unfold os_chdir. now rewrite Hfile, Hexists. }
  assert (Hrun : main env args fuel w =
            (Raise (NotADirectoryError (resolve env (root args))), w)).
  { unfold main, startup. rewrite Hexists. cbn [negb].
    unfold bind at 1 2. now rewrite Hchdir. }
  rewrite Hrun. cbn [fst exit_message].
  repeat split; try assumption. intros msg; discriminate.
Qed.

(** C6, as the code has it: when every probed port is occupied, the error
    raised by [find_available_port] is a [RuntimeError] whose message names
    the starting port of the scan, and nothing else of the range. *)
Theorem find_available_port_exhausted_names_start :
  forall (start_port tries : Z) (w : World),
    (forall j, (j < Z.to_nat tries)%nat ->
       connect_ex env (clock w + j) (localhost, start_port + Z.of_nat j) = 0) ->
    fst (find_available_port env start_port tries w) =
      Raise (RuntimeError ("在 " ++ str start_port ++ " 附近找不到可用端口")) /\
    contains ("在 " ++ str start_port ++ " 附近找不到可用端口") (str start_port) = true.
Proof.
  intros start_port tries w Hbusy.
  split; [|apply contains_infix].
  pose proof (find_available_port_loop_spec start_port
                (range start_port (start_port + tries)) w) as H.
  cbn zeta in H. unfold find_available_port.
  destruct (find_available_port_loop env start_port _ w) as [[q|e|] w'].
  - exfalso. destruct H as (k & Hk & _ & Hfail & _).
    rewrite range_length in Hk.
    replace (start_port + tries - start_port) with tries in Hk by lia.
    apply Hfail. rewrite range_nth.
    + now apply Hbusy.
    + now replace (start_port + tries - start_port) with tries by lia.
  - destruct H as (He & _). cbn [fst]. now rewrite He.
  - destruct H.
Qed.

(** ** The launcher *)

(** The scan and the readiness wait leave the server alone. *)
Lemma find_available_port_loop_server_events (start_port : Z) (ports : list Z) :
  forall w : World,
    server_events (trace (snd (find_available_port_loop env start_port ports w))) =
    server_events (trace w).
Proof.
  induction ports as [|p rest IH]; intros w; [reflexivity|].
  rewrite find_available_port_loop_cons; cbn zeta.
  destruct (negb _).
  - cbn [snd trace]. rewrite server_events_app. cbn. now rewrite app_nil_r.
  - rewrite IH. cbn [trace]. rewrite server_events_app. cbn. now rewrite app_nil_r.
Qed.

Lemma wait_until_listening_loop_server_events (port delay : Z) (turns : nat) :
  forall w : World,
    server_events (trace (snd (wait_until_listening_loop env port turns delay w))) =
    server_events (trace w).
Proof.
  induction turns as [|turns IH]; intros w; [reflexivity|].
  rewrite wait_until_listening_loop_S; cbn zeta.
  destruct (_ =? 0).
  - cbn [snd trace]. rewrite server_events_app. cbn. now rewrite app_nil_r.
  - rewrite IH. cbn [trace]. rewrite server_events_app. cbn. now rewrite app_nil_r.
Qed.

(** The readiness wait only adds to the trace. *)
Lemma wait_until_listening_loop_extends (port delay : Z) (turns : nat) :
  forall w : World,
    exists evs : list event,
      trace (snd (wait_until_listening_loop env port turns delay w)) =
      (trace w ++ evs)%list.
Proof.
  induction turns as [|turns IH]; intros w.
  - exists []. cbn. now rewrite app_nil_r.
  - rewrite wait_until_listening_loop_S; cbn zeta.
    destruct (_ =? 0).
    + eexists. reflexivity.
    + match goal with |- context [wait_until_listening_loop _ _ _ _ ?w1] =>
        destruct (IH w1) as (evs & Hevs) end.
      rewrite Hevs. cbn [trace]. rewrite <- app_assoc. eexists. reflexivity.
Qed.

(** [startup], one call at a time. *)
Lemma startup_unfold (args : Args) (w : World) :
  startup env args w =
  let web_root := resolve env (root args) in
  if negb (path_exists env web_root)
  then (Raise (SystemExit (root_missing_message web_root)), w)
  else if is_dir env web_root
  then
    match find_available_port env (port args) default_tries
            (after w [Chdir web_root]) with
    | (Return q, w1) =>
        let url := launcher_url q (entry args) in
        match wait_until_listening env q default_retries default_delay
                (after w1 (server_start_events web_root q url)) with
        | (Return _, w2) => (Return (q, url), w2)
        | (Raise e, w2) => (Raise e, w2)
        | (Pending, w2) => (Pending, w2)
        end
    | (Raise e, w1) => (Raise e, w1)
    | (Pending, w1) => (Pending, w1)
    end
  else if path_exists env web_root
  then (Raise (NotADirectoryError web_root), w)
  else (Raise (FileNotFoundError web_root), w).
Proof.
  cbn zeta. unfold startup.
  destruct (negb (path_exists env (resolve env (root args)))) eqn:Hmissing; [reflexivity|].
  unfold bind at 1. unfold os_chdir.
  destruct (is_dir env (resolve env (root args))).
  - unfold emit at 1. unfold bind at 1. unfold after.
    destruct (find_available_port env (port args) default_tries _) as [[q|e|] w1];
      try reflexivity.
    unfold bind, print, emit, ret, server_start_events; cbn [clock trace].
    rewrite <- !app_assoc. cbn [app].
    destruct (wait_until_listening env q default_retries default_delay _) as [[u|e|] w2];
      reflexivity.
  - destruct (path_exists env (resolve env (root args))); reflexivity.
Qed.

(** [main] once [startup] has returned: the browser is opened on the URL
    of [startup] whatever comes of it, the hint is printed and the final
    loop is entered. *)
Lemma main_after_startup (args : Args) (fuel : nat) (w w1 : World) (q : Z) (url : string) :
  startup env args w = (Return (q, url), w1) ->
  main env args fuel w =
  serve_until_interrupt env fuel
    (after w1 [BrowserOpen url (browser_launch env url); PrintLine browser_hint]).
Proof.
  intros Hstart. unfold main. unfold bind at 1. rewrite Hstart. cbn [snd].
  unfold open_browser, webbrowser_open, print, bind, emit, ret, after; cbn [clock trace].
  now rewrite <- app_assoc.
Qed.

(** What a returning [startup] went through. *)
Lemma startup_returns_inv (args : Args) (w w1 : World) (q : Z) (url : string) :
  startup env args w = (Return (q, url), w1) ->
  url = launcher_url q (entry args) /\
  is_dir env (resolve env (root args)) = true /\
  exists w0,
    find_available_port env (port args) default_tries
      (after w [Chdir (resolve env (root args))]) = (Return q, w0) /\
    wait_until_listening env q default_retries default_delay
      (after w0 (server_start_events (resolve env (root args)) q url)) =
      (Return tt, w1).
Proof.
  rewrite startup_unfold; cbn zeta.
  destruct (negb _); [discriminate|].
  destruct (is_dir env _); [|destruct (path_exists env _); discriminate].
  destruct (find_available_port env _ _ _) as [[q0|e|] w0] eqn:Hfind; try discriminate.
  destruct (wait_until_listening env q0 _ _ _) as [[[]|e|] w2] eqn:Hwait; try discriminate.
  intros H. injection H as Hq Hurl Hw. subst q0 w2.
  split; [now symmetry|]. split; [reflexivity|].
  exists w0. split; [reflexivity|]. now rewrite <- Hurl.
Qed.

(** A returning [startup] has bound the server and started its thread,
    and has neither shut it down nor closed it. *)
Lemma startup_returns_server_events (args : Args) (w w1 : World) (q : Z) (url : string) :
  startup env args w = (Return (q, url), w1) ->
  server_events (trace w1) =
  (server_events (trace w) ++ [ServerBind localhost q; ThreadStart])%list.
Proof.
  intros Hstart.
  destruct (startup_returns_inv _ _ _ _ _ Hstart) as (_ & _ & w0 & Hfind & Hwait).
  pose proof (wait_until_listening_loop_server_events q default_delay
                (Z.to_nat default_retries)
                (after w0 (server_start_events (resolve env (root args)) q url))) as H2.
  unfold wait_until_listening in Hwait. rewrite Hwait in H2. cbn [snd] in H2.
  pose proof (find_available_port_loop_server_events (port args)
                (range (port args) (port args + default_tries))
                (after w [Chdir (resolve env (root args))])) as H1.
  unfold find_available_port in Hfind. rewrite Hfind in H1. cbn [snd] in H1.
  rewrite H2. unfold after; cbn [trace]. rewrite server_events_app, H1.
  unfold after; cbn [trace]. rewrite server_events_app. cbn. now rewrite app_nil_r.
Qed.

(** The final loop, interrupted at its turn [i + k]. *)
Lemma alive_loop_interrupted (k : nat) :
  forall (fuel i : nat) (w : World),
    signal env (i + k) = Interrupted ->
    (forall j, (j < k)%nat -> signal env (i + j) = StillAlive) ->
    (k < fuel)%nat ->
    alive_loop env fuel i w = (Raise KeyboardInterrupt, after w (repeat (Sleep 500) k)).
Proof.
  induction k as [|k IH]; intros fuel i w Hint Halive Hfuel;
    (destruct fuel as [|fuel]; [lia|]); cbn [alive_loop repeat].
  - rewrite Nat.add_0_r in Hint. rewrite Hint. now rewrite after_nil.
  - assert (H0 : signal env i = StillAlive).
    { rewrite <- (Halive O) by lia. now rewrite Nat.add_0_r. }
    rewrite H0. unfold bind, emit. fold (after w [Sleep 500]).
    rewrite (IH fuel (S i)).
    + now rewrite after_after.
    + now replace (S i + k)%nat with (i + S k)%nat by lia.
    + intros j Hj. replace (S i + j)%nat with (i + S j)%nat by lia. apply Halive; lia.
    + lia.
Qed.

(** The final loop and its handlers never let an exception out. *)
Lemma serve_until_interrupt_never_raises (fuel : nat) (w : World) (e : exn) :
  fst (serve_until_interrupt env fuel w) <> Raise e.
Proof.
  unfold serve_until_interrupt, try_finally, except_KeyboardInterrupt.
  assert (Hloop : forall n i w0,
            (exists w1, alive_loop env n i w0 = (Return tt, w1)) \/
            (exists w1, alive_loop env n i w0 = (Raise KeyboardInterrupt, w1)) \/
            (exists w1, alive_loop env n i w0 = (Pending, w1))).
  { induction n as [|n IH]; intros i w0; cbn [alive_loop].
    - right; right. now exists w0.
    - destruct (signal env i).
      + unfold bind, emit. apply IH.
      + left. now exists w0.
      + right; left. now exists w0. }
  destruct (Hloop fuel O w) as [[w1 H]|[[w1 H]|[w1 H]]]; rewrite H; cbn; discriminate.
Qed.

(** When [main] ends with the startup timeout, the server was bound and
    its thread started, and nothing shut it down or closed it. *)
Lemma main_startup_timeout_skips_cleanup (args : Args) (fuel : nat) (w w' : World) :
  main env args fuel w = (Raise StartupTimeout, w') ->
  exists q : Z,
    server_events (trace w') =
    (server_events (trace w) ++ [ServerBind localhost q; ThreadStart])%list.
Proof.
  intros Hmain.
  destruct (startup env args w) as [[[q url]|e|] w1] eqn:Hstart.
  - exfalso. rewrite (main_after_startup _ _ _ _ _ _ Hstart) in Hmain.
    apply (serve_until_interrupt_never_raises fuel
             (after w1 [BrowserOpen url (browser_launch env url); PrintLine browser_hint])
             StartupTimeout).
    now rewrite Hmain.
  - unfold main in Hmain. unfold bind at 1 in Hmain. rewrite Hstart in Hmain.
    injection Hmain as He Hw. subst e w1.
    rewrite startup_unfold in Hstart; cbn zeta in Hstart.
    destruct (negb _); [discriminate|].
    destruct (is_dir env _); [|destruct (path_exists env _); discriminate].
    pose proof (find_available_port_loop_spec (port args)
                  (range (port args) (port args + default_tries))
                  (after w [Chdir (resolve env (root args))])) as Hscan.
    pose proof (find_available_port_loop_server_events (port args)
                  (range (port args) (port args + default_tries))
                  (after w [Chdir (resolve env (root args))])) as H1.
    cbn zeta in Hscan. unfold find_available_port in Hstart.
    destruct (find_available_port_loop env _ _ _) as [[q|e|] w0]; cbn [snd] in H1.
    + exists q.
      pose proof (wait_until_listening_loop_server_events q default_delay
                    (Z.to_nat default_retries)
                    (after w0 (server_start_events (resolve env (root args)) q
                                 (launcher_url q (entry args))))) as H2.
      unfold wait_until_listening in Hstart.
      destruct (wait_until_listening_loop env q _ _ _) as [[u|e|] w2];
        try discriminate.
      injection Hstart as _ Hw. subst w2. cbn [snd] in H2.
      rewrite H2. unfold after; cbn [trace]. rewrite server_events_app, H1.
      unfold after; cbn [trace]. rewrite server_events_app. cbn. now rewrite app_nil_r.
    + exfalso. destruct Hscan as (He & _). subst e.
      injection Hstart as Hmsg _. discriminate Hmsg.
    + discriminate.
  - unfold main in Hmain. unfold bind at 1 in Hmain. rewrite Hstart in Hmain.
    discriminate.
Qed.

(** C5: when Ctrl+C arrives at some turn of the final loop (the server
    thread being alive until then), [main] catches the interrupt: it
    prints the notice, shuts the server down, closes its socket, joins
    the thread with a timeout of 2 seconds, prints the closing message and
    returns, so the process exits with status 0. *)
Theorem interrupt_takes_graceful_shutdown :
  forall (args : Args) (w w1 : World) (q : Z) (url : string) (k fuel : nat),
    startup env args w = (Return (q, url), w1) ->
    signal env k = Interrupted ->
    (forall j, (j < k)%nat -> signal env j = StillAlive) ->
    (k < fuel)%nat ->
    main env args fuel w =
      (Return tt,
       after w1 ([BrowserOpen url (browser_launch env url); PrintLine browser_hint] ++
                 repeat (Sleep 500) k ++
                 [PrintLine interrupt_message; ServerShutdown; ServerClose;
                  ThreadJoin 2; PrintLine goodbye_message])) /\
    exit_status (fst (main env args fuel w)) = Some 0 /\
    server_events (trace (snd (main env args fuel w))) =
      (server_events (trace w) ++
       [ServerBind localhost q; ThreadStart; ServerShutdown; ServerClose; ThreadJoin 2])%list.
Proof.
  intros args w w1 q url k fuel Hstart Hint Halive Hfuel.
  assert (Hrun : main env args fuel w =
      (Return tt,
       after w1 ([BrowserOpen url (browser_launch env url); PrintLine browser_hint] ++
                 repeat (Sleep 500) k ++
                 [PrintLine interrupt_message; ServerShutdown; ServerClose;
                  ThreadJoin 2; PrintLine goodbye_message]))).
  { rewrite (main_after_startup _ _ _ _ _ _ Hstart).
    unfold serve_until_interrupt, try_finally, except_KeyboardInterrupt.
    rewrite (alive_loop_interrupted k fuel O) by assumption.
    unfold shutdown_server, print, bind, emit, after; cbn [clock trace].
    rewrite <- !app_assoc. reflexivity. }
  rewrite Hrun. cbn [fst snd exit_status].
  split; [reflexivity|]. split; [reflexivity|].
  unfold after; cbn [trace].
  rewrite !server_events_app, server_events_sleeps,
    (startup_returns_server_events _ _ _ _ _ Hstart).
  cbn. now rewrite <- app_assoc.
Qed.

(** C9: whatever [webbrowser.open] returns, [main] prints the hint about
    copying the address by hand and enters the final loop; the server is
    bound, its thread is started, and nothing has stopped it. *)
Theorem browser_failure_is_not_fatal :
  forall (args : Args) (fuel : nat) (w w1 : World) (q : Z) (url : string)
         (opened : bool),
    startup env args w = (Return (q, url), w1) ->
    browser_launch env url = opened ->
    open_browser env url w1 =
      (Return tt, after w1 [BrowserOpen url opened; PrintLine browser_hint]) /\
    main env args fuel w =
      serve_until_interrupt env fuel
        (after w1 [BrowserOpen url opened; PrintLine browser_hint]) /\
    server_events (trace (after w1 [BrowserOpen url opened; PrintLine browser_hint])) =
      (server_events (trace w) ++ [ServerBind localhost q; ThreadStart])%list.
Proof.
  intros args fuel w w1 q url opened Hstart Hopened.
  split; [|split].
  - unfold open_browser, webbrowser_open, print, bind, emit, ret, after; cbn [clock trace].
    now rewrite Hopened, <- app_assoc.
  - rewrite (main_after_startup _ _ _ _ _ _ Hstart). now rewrite Hopened.
  - unfold after; cbn [trace]. rewrite server_events_app.
    rewrite (startup_returns_server_events _ _ _ _ _ Hstart). cbn. now rewrite app_nil_r.
Qed.

(** C7: the URL built by the launcher is "http://localhost:", the decimal
    port, "/", and the entry page without its leading '/' characters (all
    of them, and nothing else, are dropped); with the default entry its
    path is "/index.html"; and this is the URL printed in the banner and
    handed to the browser. *)
Theorem launcher_url_exact :
  forall (args : Args) (fuel : nat) (w : World) (q : Z),
    launcher_url q (entry args) =
      "http://localhost:" ++ str q ++ "/" ++ lstrip "/" (entry args) /\
    (exists k : nat,
       entry args = str_mul "/" k ++ lstrip "/" (entry args) /\
       forall rest, lstrip "/" (entry args) <> String "/" rest) /\
    launcher_url q default_entry = "http://localhost:" ++ str q ++ "/index.html" /\
    (forall (url : string) (w1 : World),
       startup env args w = (Return (q, url), w1) ->
       url = launcher_url q (entry args) /\
       In (PrintLine ("访问地址：" ++ launcher_url q (entry args))) (trace w1) /\
       main env args fuel w =
         serve_until_interrupt env fuel
           (after w1 [BrowserOpen (launcher_url q (entry args))
                        (browser_launch env (launcher_url q (entry args)));
                      PrintLine browser_hint])).
Proof.
  intros args fuel w q.
  split; [reflexivity|]. split; [apply lstrip_slash_spec|]. split; [reflexivity|].
  intros url w1 Hstart.
  destruct (startup_returns_inv _ _ _ _ _ Hstart) as (Hurl & _ & w0 & _ & Hwait).
  split; [exact Hurl|]. split.
  - destruct (wait_until_listening_loop_extends q default_delay
                (Z.to_nat default_retries)
                (after w0 (server_start_events (resolve env (root args)) q url)))
      as (evs & Hevs).
    unfold wait_until_listening in Hwait. rewrite Hwait in Hevs. cbn [snd] in Hevs.
    rewrite Hevs. unfold after; cbn [trace].
    apply in_or_app. left. apply in_or_app. right.
    rewrite <- Hurl. cbn. auto.
  - rewrite (main_after_startup _ _ _ _ _ _ Hstart). now rewrite Hurl.
Qed.

End Facts.

(** ** Concrete runs *)

Example lstrip_slashes : lstrip "/" "//docs/index.html" = "docs/index.html".
Proof. reflexivity. Qed.

Example launcher_url_sample :
  launcher_url 8000 "/docs/index.html" = "http://localhost:8000/docs/index.html".
Proof. reflexivity. Qed.

Example find_available_port_skips_busy :
  fst (find_available_port env_third_free 8000 25 initial_world) = Return 8002 /\
  connects (trace (snd (find_available_port env_third_free 8000 25 initial_world))) =
    [(localhost, 8000); (localhost, 8001); (localhost, 8002)].
Proof. split; vm_compute; reflexivity. Qed.

Example wait_until_listening_times_out :
  fst (wait_until_listening env_never_ready 8000 40 150 initial_world) =
    Raise StartupTimeout /\
  List.length (connects (trace (snd (wait_until_listening env_never_ready 8000 40 150
                                       initial_world)))) = 40%nat.
Proof. split; vm_compute; reflexivity. Qed.

Example main_interrupted_run :
  main env_ready sample_args 10 initial_world =
    (Return tt,
     mkWorld 2
       [Chdir "/srv/site";
        SockOpen; SockOpt; Connect localhost 8000 ECONNREFUSED; SockClose;
        ServerBind localhost 8000;
        PrintLine (str_mul "-" 60);
        PrintLine "静态目录：/srv/site";
        PrintLine "访问地址：http://localhost:8000/index.html";
        PrintLine "关闭方式：回到该窗口按 Ctrl+C 即可";
        PrintLine (str_mul "-" 60);
        ThreadStart;
        SockOpen; Connect localhost 8000 0; SockClose;
        BrowserOpen "http://localhost:8000/index.html" true;
        PrintLine browser_hint;
        Sleep 500; Sleep 500;
        PrintLine interrupt_message; ServerShutdown; ServerClose; ThreadJoin 2;
        PrintLine goodbye_message]).
Proof. vm_compute. reflexivity. Qed.

(** C4, on the code: when the readiness wait runs out of attempts, the
    timeout error leaves [main] from outside the [try ... finally] that
    holds the cleanup, so the process exits with the server bound and its
    thread started, and with no shutdown and no close of the socket. *)
Theorem startup_timeout_leaves_server_socket_open :
  forall fuel : nat,
    exists w' : World,
      main env_never_ready sample_args fuel initial_world = (Raise StartupTimeout, w') /\
      exit_status (Raise StartupTimeout) = Some 1 /\
      server_events (trace w') = [ServerBind localhost 8000; ThreadStart] /\
      ~ In ServerClose (trace w').
Proof.
  intros fuel.
  destruct (main env_never_ready sample_args fuel initial_world) as [r w'] eqn:Hmain.
  assert (Hr : r = Raise StartupTimeout).
  { change r with (fst (r, w')). rewrite <- Hmain. vm_compute. reflexivity. }
  assert (Hev : server_events (trace w') = [ServerBind localhost 8000; ThreadStart]).
  { change w' with (snd (r, w')). rewrite <- Hmain. vm_compute. reflexivity. }
  exists w'. subst r.
  split; [reflexivity|]. split; [reflexivity|]. split; [exact Hev|].
  intros Hin.
  assert (Hin' : In ServerClose (server_events (trace w'))).
  { apply filter_In. split; [exact Hin|reflexivity]. }
  rewrite Hev in Hin'. cbn in Hin'.
  destruct Hin' as [H|[H|[]]]; discriminate H.
Qed.

(** ** Instances *)

Lemma main_missing_root_witness :
  path_exists env_no_root (resolve env_no_root (root sample_args)) = false /\
  main env_no_root sample_args 0 initial_world =
    (Raise (SystemExit "目录不存在：/srv/site"), initial_world).
Proof.
  split; [reflexivity|].
  exact (proj1 (main_missing_root_exits_before_any_socket
                  env_no_root sample_args 0 initial_world eq_refl)).
Defined.

Lemma main_root_not_directory_witness :
  path_exists env_root_is_file (resolve env_root_is_file (root sample_args)) = true /\
  is_dir env_root_is_file (resolve env_root_is_file (root sample_args)) = false /\
  main env_root_is_file sample_args 0 initial_world =
    (Raise (NotADirectoryError "/srv/site"), initial_world).
Proof.
  split; [reflexivity|]. split; [reflexivity|].
  exact (proj1 (proj2 (main_root_not_directory_unhandled
                         env_root_is_file sample_args 0 initial_world eq_refl eq_refl))).
Defined.

Lemma find_available_port_exhausted_witness :
  (forall j, (j < Z.to_nat 25)%nat ->
     connect_ex env_all_busy (clock initial_world + j) (localhost, 8000 + Z.of_nat j) = 0) /\
  fst (find_available_port env_all_busy 8000 25 initial_world) =
    Raise (RuntimeError ("在 " ++ str 8000 ++ " 附近找不到可用端口")).
Proof.
  split; [intros j Hj; reflexivity|].
  exact (proj1 (find_available_port_exhausted_names_start
                  env_all_busy 8000 25 initial_world (fun j Hj => eq_refl))).
Defined.

Lemma interrupt_takes_graceful_shutdown_witness :
  startup env_ready sample_args initial_world =
    (Return (8000, "http://localhost:8000/index.html"),
     snd (startup env_ready sample_args initial_world)) /\
  signal env_ready 2 = Interrupted /\
  (forall j, (j < 2)%nat -> signal env_ready j = StillAlive) /\
  (2 < 3)%nat /\
  exit_status (fst (main env_ready sample_args 3 initial_world)) = Some 0 /\
  server_events (trace (snd (main env_ready sample_args 3 initial_world))) =
    [ServerBind localhost 8000; ThreadStart; ServerShutdown; ServerClose; ThreadJoin 2].
Proof.
  assert (Hstart : startup env_ready sample_args initial_world =
            (Return (8000, "http://localhost:8000/index.html"),
             snd (startup env_ready sample_args initial_world)))
    by (vm_compute; reflexivity).
  assert (Halive : forall j, (j < 2)%nat -> signal env_ready j = StillAlive)
    by (intros [|[|j]] Hj; [reflexivity|reflexivity|lia]).
  assert (Hfuel : (2 < 3)%nat) by lia.
  split; [exact Hstart|]. split; [reflexivity|]. split; [exact Halive|].
  split; [exact Hfuel|].
  exact (proj2 (interrupt_takes_graceful_shutdown env_ready sample_args initial_world
                  _ 8000 _ 2%nat 3%nat Hstart eq_refl Halive Hfuel)).
Defined.

Lemma browser_failure_is_not_fatal_witness :
  startup env_no_browser sample_args initial_world =
    (Return (8000, "http://localhost:8000/index.html"),
     snd (startup env_no_browser sample_args initial_world)) /\
  browser_launch env_no_browser "http://localhost:8000/index.html" = false /\
  main env_no_browser sample_args 5 initial_world =
    serve_until_interrupt env_no_browser 5
      (after (snd (startup env_no_browser sample_args initial_world))
         [BrowserOpen "http://localhost:8000/index.html" false; PrintLine browser_hint]).
Proof.
  assert (Hstart : startup env_no_browser sample_args initial_world =
            (Return (8000, "http://localhost:8000/index.html"),
             snd (startup env_no_browser sample_args initial_world)))
    by (vm_compute; reflexivity).
  split; [exact Hstart|]. split; [reflexivity|].
  exact (proj1 (proj2 (browser_failure_is_not_fatal env_no_browser sample_args 5
                         initial_world _ 8000 _ false Hstart eq_refl))).
Defined.

Lemma launcher_url_exact_witness :
  startup env_ready sample_args initial_world =
    (Return (8000, "http://localhost:8000/index.html"),
     snd (startup env_ready sample_args initial_world)) /\
  "http://localhost:8000/index.html" = launcher_url 8000 (entry sample_args).
Proof.
  assert (Hstart : startup env_ready sample_args initial_world =
            (Return (8000, "http://localhost:8000/index.html"),
             snd (startup env_ready sample_args initial_world)))
    by (vm_compute; reflexivity).
  split; [exact Hstart|].
  destruct (launcher_url_exact env_ready sample_args 0 initial_world 8000)
    as (_ & _ & _ & Hrun).
  exact (proj1 (Hrun _ _ Hstart)).
Defined.

Lemma find_available_port_lowest_free_witness :
  0 <= 8000 /\
  8000 + 25 <= 65536 /\
  exists k : nat,
    (k < Z.to_nat 25)%nat /\ 8002 = 8000 + Z.of_nat k /\
    connect_ex env_third_free (clock initial_world + k) (localhost, 8000 + Z.of_nat k) <> 0 /\
    (forall j, (j < k)%nat ->
       connect_ex env_third_free (clock initial_world + j)
         (localhost, 8000 + Z.of_nat j) = 0).
Proof.
  assert (Hlow : 0 <= 8000) by lia.
  assert (Hhigh : 8000 + 25 <= 65536) by lia.
  split; [exact Hlow|]. split; [exact Hhigh|].
  pose proof (find_available_port_lowest_free env_third_free 8000 25 initial_world
                Hlow Hhigh) as H.
  cbn zeta in H. destruct H as (_ & _ & _ & H).
  assert (Hrun : find_available_port env_third_free 8000 25 initial_world =
            (Return 8002, snd (find_available_port env_third_free 8000 25 initial_world)))
    by (vm_compute; reflexivity).
  rewrite Hrun in H.
  destruct H as (k & Hk & Hq & Hfail & Hbefore & _).
  exists k. split; [exact Hk|]. split; [exact Hq|]. split; [exact Hfail|exact Hbefore].
Defined.

Lemma wait_until_listening_returns_or_times_out_witness :
  0 <= 8000 <= 65535 /\
  0 <= 150 /\
  (fst (wait_until_listening env_never_ready 8000 40 150 initial_world) =
     Raise StartupTimeout <->
   forall j, (j < Z.to_nat 40)%nat ->
     connect_ex env_never_ready (clock initial_world + j) (localhost, 8000) <> 0).
Proof.
  assert (Hport : 0 <= 8000 <= 65535) by lia.
  assert (Hdelay : 0 <= 150) by lia.
  split; [exact Hport|]. split; [exact Hdelay|].
  pose proof (wait_until_listening_returns_or_times_out env_never_ready 8000 40 150
                initial_world Hport Hdelay) as H.
  cbn zeta in H. destruct H as (_ & _ & _ & H). exact H.
Defined.

(** C6, as stated, fails: with ports 8000..8024 all occupied the message
    names 8000 and neither end of the scanned range (nor its size). *)
Lemma find_available_port_exhausted_omits_range_end :
  exists msg : string,
    fst (find_available_port env_all_busy 8000 25 initial_world) =
      Raise (RuntimeError msg) /\
    contains msg (str 8000) = true /\
    contains msg (str 8024) = false /\
    contains msg (str 8025) = false /\
    contains msg (str 25) = false.
Proof.
  eexists. split; [vm_compute; reflexivity|].
  repeat split; vm_compute; reflexivity.
Qed.

(** * Further properties of the script *)

Lemma range_empty (a b : Z) : b <= a -> range a b = [].
Proof. intros H. unfold range. now replace (Z.to_nat (b - a)) with O by lia. Qed.

Lemma range_first (a n : Z) : 0 < n -> exists rest, range a (a + n) = a :: rest.
Proof.
  intros H. unfold range.
  destruct (Z.to_nat (a + n - a)) as [|m] eqn:Hm; [lia|].
  cbn. rewrite Z.add_0_r. eexists. reflexivity.
Qed.

Lemma range_budget_prefix (a n n' : Z) :
  n <= n' -> exists rest, range a (a + n') = (range a (a + n) ++ rest)%list.
Proof.
  intros H. unfold range.
  replace (Z.to_nat (a + n' - a))
    with (Z.to_nat (a + n - a) + (Z.to_nat n' - Z.to_nat n))%nat by lia.
  rewrite seq_app, map_app. eexists. reflexivity.
Qed.

Lemma lstrip_leading_slashes (k : nat) (e : string) :
  lstrip "/" (str_mul "/" k ++ e) = lstrip "/" e.
Proof. induction k as [|k IH]; [reflexivity|exact IH]. Qed.

Lemma lstrip_slash_idempotent (e : string) :
  lstrip "/" (lstrip "/" e) = lstrip "/" e.
Proof.
  destruct (lstrip_slash_spec e) as (k & _ & Hhead).
  destruct (lstrip "/" e) as [|c rest] eqn:Hs; [reflexivity|].
  cbn [lstrip char_in]. destruct (Ascii.eqb c "/") eqn:Hc; [|reflexivity].
  apply Ascii.eqb_eq in Hc. subst c. now destruct (Hhead rest).
Qed.

(** ** Probe events *)

Lemma probe_sockets_ok_app (a b : list event) :
  forall open : bool,
    probe_sockets_ok open a = true ->
    probe_sockets_ok open (a ++ b) = probe_sockets_ok false b.
Proof.
  induction a as [|e a IH]; intros open H; cbn in *.
  - now destruct open.
  - destruct e; apply andb_true_iff in H; destruct H as [Ho H];
      rewrite Ho; cbn; now apply IH.
Qed.

Lemma probe_sockets_ok_join (a b : list event) :
  probe_sockets_ok false a = true ->
  probe_sockets_ok false b = true ->
  probe_sockets_ok false (a ++ b) = true.
Proof. intros Ha Hb. now rewrite (probe_sockets_ok_app a b false Ha). Qed.

Lemma probe_sockets_ok_sleeps (ms : Z) (k : nat) :
  probe_sockets_ok false (repeat (Sleep ms) k) = true.
Proof. induction k as [|k IH]; [reflexivity|exact IH]. Qed.

Lemma probe_events_server_events (evs : list event) :
  forallb is_probe_event evs = true -> server_events evs = [].
Proof.
  induction evs as [|e evs IH]; [reflexivity|]. cbn. intros H.
  apply andb_true_iff in H. destruct H as [He H].
  destruct e; try discriminate He; cbn; now apply IH.
Qed.

Lemma probe_events_browser_opens (evs : list event) :
  forallb is_probe_event evs = true -> browser_opens evs = [].
Proof.
  induction evs as [|e evs IH]; [reflexivity|]. cbn. intros H.
  apply andb_true_iff in H. destruct H as [He H].
  destruct e; try discriminate He; cbn; now apply IH.
Qed.

Lemma probe_events_printed (evs : list event) :
  forallb is_probe_event evs = true -> printed evs = [].
Proof.
  induction evs as [|e evs IH]; [reflexivity|]. cbn. intros H.
  apply andb_true_iff in H. destruct H as [He H].
  destruct e; try discriminate He; cbn; now apply IH.
Qed.

Lemma browser_opens_app (tr1 tr2 : list event) :
  browser_opens (tr1 ++ tr2) = (browser_opens tr1 ++ browser_opens tr2)%list.
Proof.
  induction tr1 as [|e tr1 IH]; simpl; [reflexivity|].
  destruct e; simpl; now rewrite IH.
Qed.

Lemma printed_app (tr1 tr2 : list event) :
  printed (tr1 ++ tr2) = (printed tr1 ++ printed tr2)%list.
Proof.
  induction tr1 as [|e tr1 IH]; simpl; [reflexivity|].
  destruct e; simpl; now rewrite IH.
Qed.

Lemma browser_opens_sleeps (ms : Z) (k : nat) :
  browser_opens (repeat (Sleep ms) k) = [].
Proof. induction k as [|k IH]; [reflexivity|exact IH]. Qed.

Lemma server_events_startup (web_root : Path) (q : Z) (url : string)
      (ev1 rest : list event) :
  forallb is_probe_event ev1 = true ->
  server_events (Chdir web_root :: ev1 ++ server_start_events web_root q url ++ rest) =
  ServerBind localhost q :: ThreadStart :: server_events rest.
Proof.
  intros Hp1.
  change (Chdir web_root :: ev1 ++ server_start_events web_root q url ++ rest)%list
    with ([Chdir web_root] ++ ev1 ++ server_start_events web_root q url ++ rest)%list.
  rewrite !server_events_app, (probe_events_server_events ev1 Hp1). reflexivity.
Qed.

Lemma browser_opens_startup (web_root : Path) (q : Z) (url : string)
      (ev1 rest : list event) :
  forallb is_probe_event ev1 = true ->
  browser_opens (Chdir web_root :: ev1 ++ server_start_events web_root q url ++ rest) =
  browser_opens rest.
Proof.
  intros Hp1.
  change (Chdir web_root :: ev1 ++ server_start_events web_root q url ++ rest)%list
    with ([Chdir web_root] ++ ev1 ++ server_start_events web_root q url ++ rest)%list.
  rewrite !browser_opens_app, (probe_events_browser_opens ev1 Hp1). reflexivity.
Qed.



(** The two [RuntimeError]s of the script carry different messages. *)
Lemma PortExhausted_not_StartupTimeout (p : Z) : PortExhausted p <> StartupTimeout.
Proof. unfold PortExhausted, StartupTimeout. intros H. injection H as H. discriminate H. Qed.

Section MoreFacts.

Variable env : Env.

(** ** The two probing loops *)

(** A scan that returns on a list of ports returns the same on any
    longer list. *)
Lemma find_available_port_loop_app (start_port : Z) (ports more : list Z) :
  forall (w w' : World) (q : Z),
    find_available_port_loop env start_port ports w = (Return q, w') ->
    find_available_port_loop env start_port (ports ++ more) w = (Return q, w').
Proof.
  induction ports as [|p rest IH]; intros w w' q Hrun.
  - discriminate Hrun.
  - rewrite <- app_comm_cons. rewrite find_available_port_loop_cons in *.
    cbn zeta in *. destruct (negb _); [exact Hrun|]. now apply IH.
Qed.

Lemma wait_until_listening_loop_more (port delay : Z) (turns : nat) :
  forall (turns' : nat) (w w' : World),
    (turns <= turns')%nat ->
    wait_until_listening_loop env port turns delay w = (Return tt, w') ->
    wait_until_listening_loop env port turns' delay w = (Return tt, w').
Proof.
  induction turns as [|turns IH]; intros turns' w w' Hle Hrun.
  - discriminate Hrun.
  - destruct turns' as [|turns']; [lia|].
    rewrite wait_until_listening_loop_S in *. cbn zeta in *.
    destruct (_ =? 0); [exact Hrun|]. apply IH; [lia|exact Hrun].
Qed.

(** What a scan adds to the trace: probe events only, in good order. *)
Lemma find_available_port_loop_emits (start_port : Z) (ports : list Z) :
  forall w : World,
    exists evs : list event,
      trace (snd (find_available_port_loop env start_port ports w)) =
        (trace w ++ evs)%list /\
      forallb is_probe_event evs = true /\
      probe_sockets_ok false evs = true.
Proof.
  induction ports as [|p rest IH]; intros w.
  - exists []. cbn. now rewrite app_nil_r.
  - rewrite find_available_port_loop_cons. cbn zeta.
    destruct (negb _).
    + eexists. cbn [snd trace]. split; [reflexivity|]. now split.
    + match goal with |- context [find_available_port_loop _ _ _ ?w1] =>
        destruct (IH w1) as (evs & Htr & Hprobe & Hok) end.
      rewrite Htr. cbn [trace]. rewrite <- app_assoc.
      eexists. split; [reflexivity|]. split.
      * rewrite forallb_app, Hprobe. reflexivity.
      * apply probe_sockets_ok_join; [reflexivity|exact Hok].
Qed.

(** What a readiness wait adds to the trace: probe events only, in good
    order, ending with the successful connect when it returns. *)
Lemma wait_until_listening_loop_emits (port delay : Z) (turns : nat) :
  forall w : World,
    exists evs : list event,
      trace (snd (wait_until_listening_loop env port turns delay w)) =
        (trace w ++ evs)%list /\
      forallb is_probe_event evs = true /\
      probe_sockets_ok false evs = true /\
      (forall u, fst (wait_until_listening_loop env port turns delay w) = Return u ->
       exists before : list event,
         evs = (before ++ [SockOpen; Connect localhost port 0; SockClose])%list /\
         forallb is_probe_event before = true /\
         probe_sockets_ok false before = true).
Proof.
  induction turns as [|turns IH]; intros w.
  - exists []. cbn. rewrite app_nil_r. repeat split. intros u Hu; discriminate Hu.
  - rewrite wait_until_listening_loop_S. cbn zeta.
    destruct (connect_ex env (clock w) (localhost, port) =? 0) eqn:Hrc.
    + apply Z.eqb_eq in Hrc. rewrite Hrc.
      eexists. cbn [fst snd trace]. split; [reflexivity|]. split; [reflexivity|].
      split; [reflexivity|]. intros _ _. now exists [].
    + match goal with |- context [wait_until_listening_loop _ _ _ _ ?w1] =>
        destruct (IH w1) as (evs & Htr & Hprobe & Hok & Hlast) end.
      rewrite Htr. cbn [trace]. rewrite <- app_assoc.
      eexists. split; [reflexivity|]. split; [|split].
      * rewrite forallb_app, Hprobe. reflexivity.
      * apply probe_sockets_ok_join; [reflexivity|exact Hok].
      * intros u Hu. destruct (Hlast u Hu) as (before & Hbefore & Hp & Ho).
        rewrite Hbefore, app_assoc. eexists. split; [reflexivity|]. split.
        -- rewrite forallb_app, Hp. reflexivity.
        -- apply probe_sockets_ok_join; [reflexivity|exact Ho].
Qed.

(** ** The final loop *)

(** The final loop, left at its turn [i + k] because the thread ended. *)
Lemma alive_loop_exited (k : nat) :
  forall (fuel i : nat) (w : World),
    signal env (i + k) = ThreadExited ->
    (forall j, (j < k)%nat -> signal env (i + j) = StillAlive) ->
    (k < fuel)%nat ->
    alive_loop env fuel i w = (Return tt, after w (repeat (Sleep 500) k)).
Proof.
  induction k as [|k IH]; intros fuel i w Hexit Halive Hfuel;
    (destruct fuel as [|fuel]; [lia|]); cbn [alive_loop repeat].
  - rewrite Nat.add_0_r in Hexit. rewrite Hexit. now rewrite after_nil.
  - assert (H0 : signal env i = StillAlive).
    { rewrite <- (Halive O) by lia. now rewrite Nat.add_0_r. }
    rewrite H0. unfold bind, emit. fold (after w [Sleep 500]).
    rewrite (IH fuel (S i)).
    + now rewrite after_after.
    + now replace (S i + k)%nat with (i + S k)%nat by lia.
    + intros j Hj. replace (S i + j)%nat with (i + S j)%nat by lia. apply Halive; lia.
    + lia.
Qed.

(** The final loop while nothing happens: it is still running when the
    fuel is spent. *)
Lemma alive_loop_pending (fuel : nat) :
  forall (i : nat) (w : World),
    (forall j, (j < fuel)%nat -> signal env (i + j) = StillAlive) ->
    alive_loop env fuel i w = (Pending, after w (repeat (Sleep 500) fuel)).
Proof.
  induction fuel as [|fuel IH]; intros i w Halive; cbn [alive_loop repeat].
  - unfold pending. now rewrite after_nil.
  - assert (H0 : signal env i = StillAlive).
    { rewrite <- (Halive O) by lia. now rewrite Nat.add_0_r. }
    rewrite H0. unfold bind, emit. fold (after w [Sleep 500]).
    rewrite (IH (S i)).
    + now rewrite after_after.
    + intros j Hj. replace (S i + j)%nat with (i + S j)%nat by lia. apply Halive; lia.
Qed.

(** Every way the final loop and its handlers can go. *)
Lemma serve_until_interrupt_run (fuel : nat) (w : World) :
  exists (k : nat) (r : outcome unit) (tail : list event),
    serve_until_interrupt env fuel w =
      (r, after w (repeat (Sleep 500) k ++ tail)) /\
    ((r = Return tt /\
      tail = [ServerShutdown; ServerClose; ThreadJoin 2; PrintLine goodbye_message]) \/
     (r = Return tt /\
      tail = [PrintLine interrupt_message; ServerShutdown; ServerClose; ThreadJoin 2;
              PrintLine goodbye_message]) \/
     (r = Pending /\ tail = [])).
Proof.
  assert (Hloop : forall n i w0,
            exists k,
              (alive_loop env n i w0 = (Return tt, after w0 (repeat (Sleep 500) k))) \/
              (alive_loop env n i w0 = (Raise KeyboardInterrupt, after w0 (repeat (Sleep 500) k))) \/
              (alive_loop env n i w0 = (Pending, after w0 (repeat (Sleep 500) k)))).
  { induction n as [|n IH]; intros i w0; cbn [alive_loop].
    - exists O. right; right. unfold pending. now rewrite after_nil.
    - destruct (signal env i).
      + unfold bind, emit. fold (after w0 [Sleep 500]).
        destruct (IH (S i) (after w0 [Sleep 500])) as (k & [H|[H|H]]);
          exists (S k); rewrite H, after_after; cbn [repeat app]; auto.
      + exists O. left. unfold ret. now rewrite after_nil.
      + exists O. right; left. unfold raise. now rewrite after_nil. }
  destruct (Hloop fuel O w) as (k & [H|[H|H]]); exists k;
    unfold serve_until_interrupt, try_finally, except_KeyboardInterrupt; rewrite H.
  - exists (Return tt). eexists. split; [|left; split; reflexivity].
    unfold shutdown_server, print, bind, emit, after; cbn [clock trace].
    now rewrite <- !app_assoc.
  - exists (Return tt). eexists. split; [|right; left; split; reflexivity].
    unfold shutdown_server, print, bind, emit, after; cbn [clock trace].
    now rewrite <- !app_assoc.
  - exists Pending. exists []. split; [|right; right; split; reflexivity].
    now rewrite app_nil_r.
Qed.

(** ** Every run of [main] *)

(** The shape of every run of [main]: how it ends and what it has done,
    [ev1] being the events of the port scan and [ev2] those of the failed
    readiness attempts. *)
Lemma main_run_shape (args : Args) (fuel : nat) (w : World) :
  exists evs : list event,
    trace (snd (main env args fuel w)) = (trace w ++ evs)%list /\
    ((fst (main env args fuel w) =
        Raise (SystemExit (root_missing_message (resolve env (root args)))) /\
      evs = []) \/
     (fst (main env args fuel w) = Raise (NotADirectoryError (resolve env (root args))) /\
      evs = []) \/
     (exists ev1,
        forallb is_probe_event ev1 = true /\ probe_sockets_ok false ev1 = true /\
        fst (main env args fuel w) = Raise (PortExhausted (port args)) /\
        evs = Chdir (resolve env (root args)) :: ev1) \/
     (exists q ev1 ev2,
        forallb is_probe_event ev1 = true /\ probe_sockets_ok false ev1 = true /\
        forallb is_probe_event ev2 = true /\ probe_sockets_ok false ev2 = true /\
        fst (main env args fuel w) = Raise StartupTimeout /\
        evs = (Chdir (resolve env (root args)) :: ev1 ++
               server_start_events (resolve env (root args)) q
                 (launcher_url q (entry args)) ++ ev2)%list) \/
     (exists q ev1 ev2 k tail,
        forallb is_probe_event ev1 = true /\ probe_sockets_ok false ev1 = true /\
        forallb is_probe_event ev2 = true /\ probe_sockets_ok false ev2 = true /\
        evs = (Chdir (resolve env (root args)) :: ev1 ++
               server_start_events (resolve env (root args)) q
                 (launcher_url q (entry args)) ++
               ev2 ++ [SockOpen; Connect localhost q 0; SockClose] ++
               [BrowserOpen (launcher_url q (entry args))
                  (browser_launch env (launcher_url q (entry args)));
                PrintLine browser_hint] ++
               repeat (Sleep 500) k ++ tail)%list /\
        ((fst (main env args fuel w) = Return tt /\
          tail = [ServerShutdown; ServerClose; ThreadJoin 2;
                  PrintLine goodbye_message]) \/
         (fst (main env args fuel w) = Return tt /\
          tail = [PrintLine interrupt_message; ServerShutdown; ServerClose;
                  ThreadJoin 2; PrintLine goodbye_message]) \/
         (fst (main env args fuel w) = Pending /\ tail = [])))).
Proof.
  destruct (startup env args w) as [[[q url]|e|] w1] eqn:Hstart.
  - (* startup returned *)
    rewrite (main_after_startup env _ fuel _ _ _ _ Hstart).
    destruct (startup_returns_inv env _ _ _ _ _ Hstart) as (Hurl & _ & w0 & Hfind & Hwait).
    subst url.
    destruct (find_available_port_loop_emits (port args)
                (range (port args) (port args + default_tries))
                (after w [Chdir (resolve env (root args))]))
      as (ev1 & Htr1 & Hp1 & Ho1).
    unfold find_available_port in Hfind. rewrite Hfind in Htr1. cbn [snd] in Htr1.
    destruct (wait_until_listening_loop_emits q default_delay (Z.to_nat default_retries)
                (after w0 (server_start_events (resolve env (root args)) q
                             (launcher_url q (entry args)))))
      as (ev2 & Htr2 & _ & _ & Hlast).
    unfold wait_until_listening in Hwait. rewrite Hwait in Htr2, Hlast.
    cbn [fst snd] in Htr2, Hlast.
    destruct (Hlast tt eq_refl) as (before & Hev2 & Hp2 & Ho2). subst ev2.
    destruct (serve_until_interrupt_run fuel
                (after w1 [BrowserOpen (launcher_url q (entry args))
                             (browser_launch env (launcher_url q (entry args)));
                           PrintLine browser_hint]))
      as (k & r & tail & Hserve & Hcases).
    rewrite Hserve. cbn [fst snd].
    eexists. split.
    + unfold after; cbn [trace]. rewrite Htr2. unfold after; cbn [trace].
      rewrite Htr1. unfold after; cbn [trace].
      repeat rewrite <- app_assoc. cbn [app]. reflexivity.
    + right; right; right; right.
      exists q, ev1, before, k, tail.
      split; [exact Hp1|]. split; [exact Ho1|]. split; [exact Hp2|]. split; [exact Ho2|].
      split; [reflexivity|exact Hcases].
  - (* startup raised *)
    assert (Hmain : main env args fuel w = (Raise e, w1)).
    { unfold main. unfold bind at 1. now rewrite Hstart. }
    rewrite Hmain. cbn [fst snd].
    rewrite startup_unfold in Hstart. cbn zeta in Hstart.
    destruct (path_exists env (resolve env (root args))) eqn:Hexists; cbn [negb] in Hstart.
    2:{ injection Hstart as He Hw. subst e w1.
        exists []. split; [now rewrite app_nil_r|]. left. now split. }
    destruct (is_dir env (resolve env (root args))).
    2:{ injection Hstart as He Hw. subst e w1.
        exists []. split; [now rewrite app_nil_r|]. right; left. now split. }
    destruct (find_available_port_loop_emits (port args)
                (range (port args) (port args + default_tries))
                (after w [Chdir (resolve env (root args))]))
      as (ev1 & Htr1 & Hp1 & Ho1).
    pose proof (find_available_port_loop_spec env (port args)
                  (range (port args) (port args + default_tries))
                  (after w [Chdir (resolve env (root args))])) as Hscan.
    cbn zeta in Hscan. unfold find_available_port in Hstart.
    destruct (find_available_port_loop env _ _ _) as [[q|e0|] w0];
      cbn [snd] in Htr1; [| |destruct Hscan].
    + destruct (wait_until_listening_loop_emits q default_delay
                  (Z.to_nat default_retries)
                  (after w0 (server_start_events (resolve env (root args)) q
                               (launcher_url q (entry args)))))
        as (ev2 & Htr2 & Hp2 & Ho2 & _).
      pose proof (wait_until_listening_loop_spec env q default_delay
                    (Z.to_nat default_retries)
                    (after w0 (server_start_events (resolve env (root args)) q
                                 (launcher_url q (entry args))))) as Hwait.
      cbn zeta in Hwait. unfold wait_until_listening in Hstart.
      destruct (wait_until_listening_loop env q _ _ _) as [[u|e1|] w2];
        cbn [snd] in Htr2; [discriminate Hstart| |destruct Hwait].
      destruct Hwait as (He1 & _). subst e1.
      injection Hstart as He Hw. subst e w2.
      eexists. split.
      * rewrite Htr2. unfold after; cbn [trace]. rewrite Htr1. unfold after; cbn [trace].
        repeat rewrite <- app_assoc. cbn [app]. reflexivity.
      * right; right; right; left. exists q, ev1, ev2.
        repeat (split; [assumption|]). split; reflexivity.
    + destruct Hscan as (He0 & _). subst e0.
      injection Hstart as He Hw. subst e w0.
      eexists. split.
      * rewrite Htr1. unfold after; cbn [trace].
        repeat rewrite <- app_assoc. cbn [app]. reflexivity.
      * right; right; left. exists ev1.
        repeat (split; [assumption|]). split; reflexivity.
  - (* startup is never left running *)
    exfalso. rewrite startup_unfold in Hstart. cbn zeta in Hstart.
    destruct (negb _); [discriminate|].
    destruct (is_dir env _); [|destruct (path_exists env _); discriminate].
    pose proof (find_available_port_loop_spec env (port args)
                  (range (port args) (port args + default_tries))
                  (after w [Chdir (resolve env (root args))])) as Hscan.
    cbn zeta in Hscan. unfold find_available_port in Hstart.
    destruct (find_available_port_loop env _ _ _) as [[q|e0|] w0];
      [|discriminate|destruct Hscan].
    pose proof (wait_until_listening_loop_spec env q default_delay
                  (Z.to_nat default_retries)
                  (after w0 (server_start_events (resolve env (root args)) q
                               (launcher_url q (entry args))))) as Hwait.
    cbn zeta in Hwait. unfold wait_until_listening in Hstart.
    destruct (wait_until_listening_loop env q _ _ _) as [[u|e1|] w2];
      [discriminate|discriminate|destruct Hwait].
Qed.

(** X1: with a budget of zero or less, [find_available_port] raises the
    exhaustion error at once: no socket is opened and no port is tried. *)
Theorem find_available_port_no_budget :
  forall (start_port tries : Z) (w : World),
    tries <= 0 ->
    find_available_port env start_port tries w = (Raise (PortExhausted start_port), w).
Proof.
  intros start_port tries w H. unfold find_available_port.
  rewrite range_empty by lia. reflexivity.
Qed.

(** X2: with a budget of zero or less, [wait_until_listening] raises the
    startup timeout at once: it neither connects nor sleeps. *)
Theorem wait_until_listening_no_budget :
  forall (port retries delay : Z) (w : World),
    retries <= 0 ->
    wait_until_listening env port retries delay w = (Raise StartupTimeout, w).
Proof.
  intros port retries delay w H. unfold wait_until_listening.
  now replace (Z.to_nat retries) with O by lia.
Qed.

(** X3: a larger budget does not change a successful scan: when
    [find_available_port] returns a port with budget [tries], it returns
    the same port, after the same effects, with any budget above it. *)
Theorem find_available_port_budget_monotone :
  forall (start_port tries tries' : Z) (w w' : World) (q : Z),
    tries <= tries' ->
    find_available_port env start_port tries w = (Return q, w') ->
    find_available_port env start_port tries' w = (Return q, w').
Proof.
  intros start_port tries tries' w w' q Hle Hrun. unfold find_available_port in *.
  destruct (range_budget_prefix start_port tries tries' Hle) as (rest & Hrest).
  rewrite Hrest. now apply find_available_port_loop_app.
Qed.

(** X4: a larger budget does not change a successful wait: when
    [wait_until_listening] returns with budget [retries], it returns, after
    the same effects, with any budget above it. *)
Theorem wait_until_listening_budget_monotone :
  forall (port retries retries' delay : Z) (w w' : World),
    retries <= retries' ->
    wait_until_listening env port retries delay w = (Return tt, w') ->
    wait_until_listening env port retries' delay w = (Return tt, w').
Proof.
  intros port retries retries' delay w w' Hle Hrun. unfold wait_until_listening in *.
  apply (wait_until_listening_loop_more port delay (Z.to_nat retries)); [lia|exact Hrun].
Qed.

(** X5: when the answer to a connect depends on the address only, the
    port returned by [find_available_port] is a fixed point of the scan:
    scanning again from that port, with any positive budget and at any
    later time, returns it again. *)
Theorem find_available_port_fixed_point :
  forall (start_port tries : Z) (w w' : World) (q : Z),
    (forall t t' a, connect_ex env t a = connect_ex env t' a) ->
    find_available_port env start_port tries w = (Return q, w') ->
    forall (tries2 : Z) (w2 : World),
      0 < tries2 ->
      fst (find_available_port env q tries2 w2) = Return q.
Proof.
  intros start_port tries w w' q Hstatic Hrun tries2 w2 Hpos.
  pose proof (find_available_port_loop_spec env start_port
                (range start_port (start_port + tries)) w) as Hspec.
  cbn zeta in Hspec. unfold find_available_port in Hrun. rewrite Hrun in Hspec.
  destruct Hspec as (k & _ & Hq & Hfail & _).
  rewrite <- Hq in Hfail.
  unfold find_available_port.
  destruct (range_first q tries2 Hpos) as (rest & Hrest). rewrite Hrest.
  rewrite find_available_port_loop_cons. cbn zeta.
  rewrite (Hstatic (clock w2) (clock w + k)%nat).
  destruct (connect_ex env (clock w + k) (localhost, q) =? 0) eqn:Hrc.
  - apply Z.eqb_eq in Hrc. contradiction.
  - reflexivity.
Qed.

(** X12: leading slashes of the entry page do not matter to the URL:
    any number of them in front of an entry gives the URL of the entry
    itself, stripping twice strips no more than once, and an entry made of
    slashes only gives the root URL. *)
Theorem launcher_url_ignores_leading_slashes :
  forall (q : Z) (k : nat) (e : string),
    launcher_url q (str_mul "/" k ++ e) = launcher_url q e /\
    lstrip "/" (lstrip "/" e) = lstrip "/" e /\
    launcher_url q (str_mul "/" k) = "http://localhost:" ++ str q ++ "/".
Proof.
  intros q k e. unfold launcher_url. split; [|split].
  - now rewrite lstrip_leading_slashes.
  - apply lstrip_slash_idempotent.
  - replace (str_mul "/" k) with (str_mul "/" k ++ "").
    + now rewrite lstrip_leading_slashes.
    + clear. induction k as [|k IH]; [reflexivity|]. cbn. now rewrite IH.
Qed.

(** X6: the probe sockets are handled in good order by the scan, by the
    readiness wait and by the whole of [main], however they end: a probe
    socket is opened only when none is open, it is connected only while
    open, it is closed before anything else happens (sleeping, creating
    the server, printing, opening the browser), and none is left open. *)
Theorem probe_sockets_discipline_kept :
  forall (args : Args) (fuel : nat) (start_port tries port retries delay : Z)
         (w : World),
    probe_sockets_ok false (trace w) = true ->
    probe_sockets_ok false
      (trace (snd (find_available_port env start_port tries w))) = true /\
    probe_sockets_ok false
      (trace (snd (wait_until_listening env port retries delay w))) = true /\
    probe_sockets_ok false (trace (snd (main env args fuel w))) = true.
Proof.
  intros args fuel start_port tries port0 retries delay w Hw.
  split; [|split].
  - destruct (find_available_port_loop_emits start_port
                (range start_port (start_port + tries)) w) as (evs & Htr & _ & Hok).
    unfold find_available_port. rewrite Htr. now apply probe_sockets_ok_join.
  - destruct (wait_until_listening_loop_emits port0 delay (Z.to_nat retries) w)
      as (evs & Htr & _ & Hok & _).
    unfold wait_until_listening. rewrite Htr. now apply probe_sockets_ok_join.
  - destruct (main_run_shape args fuel w) as (evs & Htr & Hshape).
    rewrite Htr. apply probe_sockets_ok_join; [exact Hw|].
    destruct Hshape as [(_ & ->)|[(_ & ->)|[(ev1 & _ & Ho1 & _ & ->)|
      [(q & ev1 & ev2 & _ & Ho1 & _ & Ho2 & _ & ->)|
       (q & ev1 & ev2 & k & tail & _ & Ho1 & _ & Ho2 & -> & Htail)]]]].
    + reflexivity.
    + reflexivity.
    + exact Ho1.
    + cbn [probe_sockets_ok negb andb].
      rewrite (probe_sockets_ok_app ev1 _ false Ho1).
      rewrite (probe_sockets_ok_app (server_start_events _ _ _) _ false eq_refl).
      exact Ho2.
    + cbn [probe_sockets_ok negb andb].
      rewrite (probe_sockets_ok_app ev1 _ false Ho1).
      rewrite (probe_sockets_ok_app (server_start_events _ _ _) _ false eq_refl).
      rewrite (probe_sockets_ok_app ev2 _ false Ho2).
      cbn [app probe_sockets_ok negb andb].
      rewrite (probe_sockets_ok_app _ _ false (probe_sockets_ok_sleeps 500 k)).
      destruct Htail as [(_ & ->)|[(_ & ->)|(_ & ->)]]; reflexivity.
Qed.

(** X7: when the root is a directory and all 25 ports from [--port] on
    accept the probe, [main] ends with the exhaustion error naming
    [--port] (exit status 1): it has probed exactly those 25 ports, and it
    has created no server, printed nothing and opened no browser. *)
Theorem main_port_exhausted :
  forall (args : Args) (fuel : nat) (w : World),
    path_exists env (resolve env (root args)) = true ->
    is_dir env (resolve env (root args)) = true ->
    (forall j, (j < 25)%nat ->
       connect_ex env (clock w + j) (localhost, port args + Z.of_nat j) = 0) ->
    fst (main env args fuel w) = Raise (PortExhausted (port args)) /\
    exit_status (fst (main env args fuel w)) = Some 1 /\
    connects (trace (snd (main env args fuel w))) =
      (connects (trace w) ++
       map (pair localhost) (range (port args) (port args + 25)))%list /\
    server_events (trace (snd (main env args fuel w))) = server_events (trace w) /\
    printed (trace (snd (main env args fuel w))) = printed (trace w) /\
    browser_opens (trace (snd (main env args fuel w))) = browser_opens (trace w).
Proof.
  intros args fuel w Hexists Hdir Hbusy.
  pose proof (find_available_port_loop_spec env (port args)
                (range (port args) (port args + default_tries))
                (after w [Chdir (resolve env (root args))])) as Hscan.
  destruct (find_available_port_loop_emits (port args)
              (range (port args) (port args + default_tries))
              (after w [Chdir (resolve env (root args))]))
    as (ev1 & Htr1 & Hp1 & _).
  cbn zeta in Hscan.
  destruct (find_available_port_loop env (port args)
              (range (port args) (port args + default_tries))
              (after w [Chdir (resolve env (root args))])) as [[q|e|] w0] eqn:Hfind;
    cbn [snd] in Htr1; [| |destruct Hscan].
  - exfalso. destruct Hscan as (k & Hk & _ & Hfail & _).
    rewrite range_length in Hk.
    replace (port args + default_tries - port args) with 25 in Hk
      by (unfold default_tries; lia).
    change (Z.to_nat 25) with 25%nat in Hk.
    apply Hfail. rewrite range_nth.
    + cbn [after clock]. now apply Hbusy.
    + replace (port args + default_tries - port args) with 25
        by (unfold default_tries; lia).
      exact Hk.
  - destruct Hscan as (He & _ & _ & Hconn). subst e.
    assert (Hmain : main env args fuel w = (Raise (PortExhausted (port args)), w0)).
    { unfold main. unfold bind at 1. rewrite startup_unfold. cbn zeta.
      rewrite Hexists, Hdir. cbn [negb]. unfold find_available_port.
      now rewrite Hfind. }
    rewrite Hmain. cbn [fst snd].
    split; [reflexivity|]. split; [reflexivity|]. split; [|split; [|split]].
    + rewrite Hconn. cbn [after trace]. rewrite connects_app. cbn.
      now rewrite app_nil_r.
    + rewrite Htr1. cbn [after trace]. rewrite !server_events_app.
      rewrite (probe_events_server_events ev1 Hp1). cbn. now rewrite !app_nil_r.
    + rewrite Htr1. cbn [after trace]. rewrite !printed_app.
      rewrite (probe_events_printed ev1 Hp1). cbn. now rewrite !app_nil_r.
    + rewrite Htr1. cbn [after trace]. rewrite !browser_opens_app.
      rewrite (probe_events_browser_opens ev1 Hp1). cbn. now rewrite !app_nil_r.
Qed.

(** X8: when the serving thread ends by itself at some turn of the final
    loop, with no Ctrl+C, [main] leaves the loop and runs the same
    cleanup (shutdown, close, join with a timeout of 2 seconds, closing
    message), without the interrupt notice, and returns: exit status 0. *)
Theorem thread_exit_takes_cleanup :
  forall (args : Args) (w w1 : World) (q : Z) (url : string) (k fuel : nat),
    startup env args w = (Return (q, url), w1) ->
    signal env k = ThreadExited ->
    (forall j, (j < k)%nat -> signal env j = StillAlive) ->
    (k < fuel)%nat ->
    main env args fuel w =
      (Return tt,
       after w1 ([BrowserOpen url (browser_launch env url); PrintLine browser_hint] ++
                 repeat (Sleep 500) k ++
                 [ServerShutdown; ServerClose; ThreadJoin 2;
                  PrintLine goodbye_message])) /\
    exit_status (fst (main env args fuel w)) = Some 0.
Proof.
  intros args w w1 q url k fuel Hstart Hexit Halive Hfuel.
  assert (Hrun : main env args fuel w =
      (Return tt,
       after w1 ([BrowserOpen url (browser_launch env url); PrintLine browser_hint] ++
                 repeat (Sleep 500) k ++
                 [ServerShutdown; ServerClose; ThreadJoin 2;
                  PrintLine goodbye_message]))).
  { rewrite (main_after_startup env _ _ _ _ _ _ Hstart).
    unfold serve_until_interrupt, try_finally, except_KeyboardInterrupt.
    rewrite (alive_loop_exited k fuel O) by assumption.
    unfold shutdown_server, print, bind, emit, after; cbn [clock trace].
    rewrite <- !app_assoc. reflexivity. }
  rewrite Hrun. split; reflexivity.
Qed.

(** X9: [main] does not end by itself: as long as the serving thread is
    alive and no Ctrl+C arrives, it is still in the final loop after any
    number of turns, sleeping half a second per turn, with the server
    bound and started and neither shut down nor closed. *)
Theorem main_keeps_serving :
  forall (args : Args) (w w1 : World) (q : Z) (url : string) (fuel : nat),
    startup env args w = (Return (q, url), w1) ->
    (forall j, (j < fuel)%nat -> signal env j = StillAlive) ->
    main env args fuel w =
      (Pending,
       after w1 ([BrowserOpen url (browser_launch env url); PrintLine browser_hint] ++
                 repeat (Sleep 500) fuel)) /\
    exit_status (fst (main env args fuel w)) = None /\
    server_events (trace (snd (main env args fuel w))) =
      (server_events (trace w) ++ [ServerBind localhost q; ThreadStart])%list.
Proof.
  intros args w w1 q url fuel Hstart Halive.
  assert (Hrun : main env args fuel w =
      (Pending,
       after w1 ([BrowserOpen url (browser_launch env url); PrintLine browser_hint] ++
                 repeat (Sleep 500) fuel))).
  { rewrite (main_after_startup env _ _ _ _ _ _ Hstart).
    unfold serve_until_interrupt, try_finally, except_KeyboardInterrupt.
    rewrite (alive_loop_pending fuel O) by assumption.
    now rewrite after_after. }
  rewrite Hrun. cbn [fst snd exit_status].
  split; [reflexivity|]. split; [reflexivity|].
  unfold after; cbn [trace].
  rewrite !server_events_app, server_events_sleeps,
    (startup_returns_server_events env _ _ _ _ _ Hstart).
  cbn. now rewrite !app_nil_r.
Qed.

(** X10: how the way [main] ends relates to what has happened to the
    server.  [main] returns only after the server was bound, its thread
    started, and it was shut down, closed and joined, in this order; when
    [main] ends with the startup timeout the server is bound and started
    and was never shut down or closed; when it ends with the missing-root
    exit, with [NotADirectoryError] or with the port exhaustion, no server
    was ever created; and while [main] is in its final loop the server is
    bound and started and not shut down. *)
Theorem main_outcomes :
  forall (args : Args) (fuel : nat) (w : World),
    match fst (main env args fuel w) with
    | Return _ =>
        exists q,
          server_events (trace (snd (main env args fuel w))) =
          (server_events (trace w) ++
           [ServerBind localhost q; ThreadStart; ServerShutdown; ServerClose;
            ThreadJoin 2])%list
    | Raise e =>
        (e = StartupTimeout ->
         exists q,
           server_events (trace (snd (main env args fuel w))) =
           (server_events (trace w) ++ [ServerBind localhost q; ThreadStart])%list) /\
        ((exists msg, e = SystemExit msg) \/
         (exists p, e = NotADirectoryError p) \/
         (exists p, e = PortExhausted p) ->
         server_events (trace (snd (main env args fuel w))) = server_events (trace w))
    | Pending =>
        exists q,
          server_events (trace (snd (main env args fuel w))) =
          (server_events (trace w) ++ [ServerBind localhost q; ThreadStart])%list
    end.
Proof.
  intros args fuel w.
  destruct (main_run_shape args fuel w) as (evs & Htr & Hshape).
  rewrite Htr, server_events_app.
  destruct Hshape as [(Hr & ->)|[(Hr & ->)|[(ev1 & Hp1 & _ & Hr & ->)|
    [(q & ev1 & ev2 & Hp1 & _ & Hp2 & _ & Hr & ->)|
     (q & ev1 & ev2 & k & tail & Hp1 & _ & Hp2 & _ & -> & Htail)]]]].
  - rewrite Hr. split; [discriminate|]. intros _. cbn. now rewrite app_nil_r.
  - rewrite Hr. split; [discriminate|]. intros _. cbn. now rewrite app_nil_r.
  - rewrite Hr. split; [intros H; now apply PortExhausted_not_StartupTimeout in H|]. intros _.
    replace (server_events (Chdir (resolve env (root args)) :: ev1)) with (@nil event).
    + now rewrite app_nil_r.
    + symmetry. exact (probe_events_server_events ev1 Hp1).
  - rewrite Hr. split.
    + intros _. exists q.
      rewrite (server_events_startup _ _ _ _ _ Hp1),
        (probe_events_server_events ev2 Hp2). reflexivity.
    + intros [(msg & H)|[(p & H)|(p & H)]]; [discriminate H|discriminate H|].
      symmetry in H. now apply PortExhausted_not_StartupTimeout in H.
  - rewrite (server_events_startup _ _ _ _ _ Hp1).
    rewrite !server_events_app, (probe_events_server_events ev2 Hp2),
      server_events_sleeps.
    destruct Htail as [(Hr & ->)|[(Hr & ->)|(Hr & ->)]]; rewrite Hr; exists q; reflexivity.
Qed.

(** X11: the browser is opened at most once, on the launcher's URL, and
    only right after a readiness connect to the selected port has
    succeeded, the server being bound to that port and its thread started
    before; and a run that ends with the missing-root exit, with
    [NotADirectoryError], with the port exhaustion or with the startup
    timeout has opened no browser. *)
Theorem browser_opened_only_when_ready :
  forall (args : Args) (fuel : nat) (w : World),
    (browser_opens (trace (snd (main env args fuel w))) = browser_opens (trace w) \/
     exists (q : Z) (before later : list event),
       trace (snd (main env args fuel w)) =
         (trace w ++ before ++
          [SockOpen; Connect localhost q 0; SockClose;
           BrowserOpen (launcher_url q (entry args))
             (browser_launch env (launcher_url q (entry args)))] ++ later)%list /\
       In (ServerBind localhost q) before /\ In ThreadStart before /\
       browser_opens before = [] /\ browser_opens later = []) /\
    (forall e,
       fst (main env args fuel w) = Raise e ->
       e = StartupTimeout \/ (exists msg, e = SystemExit msg) \/
       (exists p, e = NotADirectoryError p) \/ (exists p, e = PortExhausted p) ->
       browser_opens (trace (snd (main env args fuel w))) = browser_opens (trace w)).
Proof.
  intros args fuel w.
  destruct (main_run_shape args fuel w) as (evs & Htr & Hshape).
  rewrite Htr, browser_opens_app.
  destruct Hshape as [(Hr & ->)|[(Hr & ->)|[(ev1 & Hp1 & _ & Hr & ->)|
    [(q & ev1 & ev2 & Hp1 & _ & Hp2 & _ & Hr & ->)|
     (q & ev1 & ev2 & k & tail & Hp1 & _ & Hp2 & _ & -> & Htail)]]]].
  - assert (H : (browser_opens (trace w) ++ browser_opens [])%list = browser_opens (trace w))
      by (cbn; now rewrite app_nil_r).
    split; [left; exact H|intros _ _ _; exact H].
  - assert (H : (browser_opens (trace w) ++ browser_opens [])%list = browser_opens (trace w))
      by (cbn; now rewrite app_nil_r).
    split; [left; exact H|intros _ _ _; exact H].
  - assert (H : (browser_opens (trace w) ++
                 browser_opens (Chdir (resolve env (root args)) :: ev1))%list =
                browser_opens (trace w)).
    { replace (browser_opens (Chdir (resolve env (root args)) :: ev1))
        with (@nil string).
      - now rewrite app_nil_r.
      - symmetry. exact (probe_events_browser_opens ev1 Hp1). }
    split; [left; exact H|intros _ _ _; exact H].
  - assert (H : (browser_opens (trace w) ++
                 browser_opens
                   (Chdir (resolve env (root args)) :: ev1 ++
                    server_start_events (resolve env (root args)) q
                      (launcher_url q (entry args)) ++ ev2))%list =
                browser_opens (trace w)).
    { rewrite (browser_opens_startup _ _ _ _ _ Hp1),
        (probe_events_browser_opens ev2 Hp2). now rewrite app_nil_r. }
    split; [left; exact H|intros _ _ _; exact H].
  - split.
    + right.
      exists q,
        (Chdir (resolve env (root args)) :: ev1 ++
         server_start_events (resolve env (root args)) q (launcher_url q (entry args)) ++
         ev2)%list,
        (PrintLine browser_hint :: repeat (Sleep 500) k ++ tail)%list.
      split; [|split; [|split; [|split]]].
      * f_equal. cbn [app]. f_equal. repeat rewrite <- app_assoc. reflexivity.
      * right. apply in_or_app. right. apply in_or_app. left. cbn. auto.
      * right. apply in_or_app. right. apply in_or_app. left. cbn. auto 10.
      * rewrite (browser_opens_startup _ _ _ _ _ Hp1).
        exact (probe_events_browser_opens ev2 Hp2).
      * cbn [browser_opens]. rewrite browser_opens_app, browser_opens_sleeps.
        destruct Htail as [(_ & ->)|[(_ & ->)|(_ & ->)]]; reflexivity.
    + intros e He _. exfalso.
      destruct Htail as [(Hr & _)|[(Hr & _)|(Hr & _)]]; rewrite Hr in He; discriminate He.
Qed.

(** The scan never sleeps. *)
Lemma find_available_port_loop_sleeps (start_port : Z) (ports : list Z) :
  forall w : World,
    sleeps (trace (snd (find_available_port_loop env start_port ports w))) =
    sleeps (trace w).
Proof.
  induction ports as [|p rest IH]; intros w; [reflexivity|].
  rewrite find_available_port_loop_cons; cbn zeta.
  destruct (negb _).
  - cbn [snd trace]. rewrite sleeps_app. cbn. now rewrite app_nil_r.
  - rewrite IH. cbn [trace]. rewrite sleeps_app. cbn. now rewrite app_nil_r.
Qed.

(** X13: the two probing functions do nothing but probe.  Whatever its
    outcome, [find_available_port] never sleeps, prints, touches the
    server or opens a browser, and [wait_until_listening] never prints,
    touches the server or opens a browser. *)
Theorem probing_has_no_other_effect :
  forall (start_port tries port retries delay : Z) (w : World),
    (sleeps (trace (snd (find_available_port env start_port tries w))) =
       sleeps (trace w) /\
     printed (trace (snd (find_available_port env start_port tries w))) =
       printed (trace w) /\
     server_events (trace (snd (find_available_port env start_port tries w))) =
       server_events (trace w) /\
     browser_opens (trace (snd (find_available_port env start_port tries w))) =
       browser_opens (trace w)) /\
    (printed (trace (snd (wait_until_listening env port retries delay w))) =
       printed (trace w) /\
     server_events (trace (snd (wait_until_listening env port retries delay w))) =
       server_events (trace w) /\
     browser_opens (trace (snd (wait_until_listening env port retries delay w))) =
       browser_opens (trace w)).
Proof.
  intros start_port tries port0 retries delay w.
  destruct (find_available_port_loop_emits start_port
              (range start_port (start_port + tries)) w) as (ev1 & Htr1 & Hp1 & _).
  destruct (wait_until_listening_loop_emits port0 delay (Z.to_nat retries) w)
    as (ev2 & Htr2 & Hp2 & _).
  unfold find_available_port, wait_until_listening.
  rewrite find_available_port_loop_sleeps, Htr1, Htr2.
  rewrite !printed_app, !server_events_app, !browser_opens_app.
  rewrite (probe_events_printed ev1 Hp1), (probe_events_server_events ev1 Hp1),
    (probe_events_browser_opens ev1 Hp1), (probe_events_printed ev2 Hp2),
    (probe_events_server_events ev2 Hp2), (probe_events_browser_opens ev2 Hp2).
  rewrite !app_nil_r. repeat split.
Qed.

(** X14: nothing happens before the working directory is changed.  In
    every run of [main] the effects are either none at all or they start
    with [os.chdir] to the resolved root, before any socket is opened; and
    when the root is missing or is not a directory there are none. *)
Theorem main_changes_directory_first :
  forall (args : Args) (fuel : nat) (w : World),
    (trace (snd (main env args fuel w)) = trace w \/
     exists rest : list event,
       trace (snd (main env args fuel w)) =
         (trace w ++ Chdir (resolve env (root args)) :: rest)%list) /\
    (path_exists env (resolve env (root args)) = false \/
     is_dir env (resolve env (root args)) = false ->
     trace (snd (main env args fuel w)) = trace w).
Proof.
  intros args fuel w. split.
  - destruct (main_run_shape args fuel w) as (evs & Htr & Hshape).
    rewrite Htr.
    destruct Hshape as [(Hr & ->)|[(Hr & ->)|[(ev1 & _ & _ & _ & ->)|
      [(q & ev1 & ev2 & _ & _ & _ & _ & _ & ->)|
       (q & ev1 & ev2 & k & tail & _ & _ & _ & _ & -> & _)]]]].
    + left. now rewrite app_nil_r.
    + left. now rewrite app_nil_r.
    + right. eexists. reflexivity.
    + right. eexists. reflexivity.
    + right. eexists. reflexivity.
  - intros Hroot. unfold main. unfold bind at 1. rewrite startup_unfold. cbn zeta.
    destruct (path_exists env (resolve env (root args))) eqn:Hexists; cbn [negb];
      [|reflexivity].
    destruct (is_dir env (resolve env (root args))) eqn:Hdir; [|reflexivity].
    destruct Hroot as [H|H]; discriminate H.
Qed.


End MoreFacts.

(** ** Instances of the further properties *)

Lemma find_available_port_no_budget_witness :
  0 <= 0 /\
  find_available_port env_ready 8000 0 initial_world =
    (Raise (PortExhausted 8000), initial_world).
Proof.
  split; [lia|].
  apply (find_available_port_no_budget env_ready 8000 0 initial_world). lia.
Defined.

Lemma wait_until_listening_no_budget_witness :
  -1 <= 0 /\
  wait_until_listening env_ready 8000 (-1) 150 initial_world =
    (Raise StartupTimeout, initial_world).
Proof.
  split; [lia|].
  apply (wait_until_listening_no_budget env_ready 8000 (-1) 150 initial_world). lia.
Defined.

Lemma find_available_port_budget_monotone_witness :
  3 <= 25 /\
  find_available_port env_third_free 8000 3 initial_world =
    (Return 8002, snd (find_available_port env_third_free 8000 3 initial_world)) /\
  find_available_port env_third_free 8000 25 initial_world =
    (Return 8002, snd (find_available_port env_third_free 8000 3 initial_world)).
Proof.
  assert (Hrun : find_available_port env_third_free 8000 3 initial_world =
            (Return 8002, snd (find_available_port env_third_free 8000 3 initial_world)))
    by (vm_compute; reflexivity).
  assert (Hle : 3 <= 25) by lia.
  split; [exact Hle|]. split; [exact Hrun|].
  exact (find_available_port_budget_monotone env_third_free 8000 3 25 initial_world
           _ 8002 Hle Hrun).
Defined.

Lemma wait_until_listening_budget_monotone_witness :
  2 <= 40 /\
  wait_until_listening env_ready 8000 2 150 initial_world =
    (Return tt, snd (wait_until_listening env_ready 8000 2 150 initial_world)) /\
  wait_until_listening env_ready 8000 40 150 initial_world =
    (Return tt, snd (wait_until_listening env_ready 8000 2 150 initial_world)).
Proof.
  assert (Hrun : wait_until_listening env_ready 8000 2 150 initial_world =
            (Return tt, snd (wait_until_listening env_ready 8000 2 150 initial_world)))
    by (vm_compute; reflexivity).
  assert (Hle : 2 <= 40) by lia.
  split; [exact Hle|]. split; [exact Hrun|].
  exact (wait_until_listening_budget_monotone env_ready 8000 2 40 150 initial_world
           _ Hle Hrun).
Defined.

Lemma find_available_port_fixed_point_witness :
  (forall t t' a, connect_ex env_third_free t a = connect_ex env_third_free t' a) /\
  find_available_port env_third_free 8000 25 initial_world =
    (Return 8002, snd (find_available_port env_third_free 8000 25 initial_world)) /\
  0 < 5 /\
  fst (find_available_port env_third_free 8002 5 initial_world) = Return 8002.
Proof.
  assert (Hstatic : forall t t' a,
            connect_ex env_third_free t a = connect_ex env_third_free t' a)
    by (intros t t' a; reflexivity).
  assert (Hrun : find_available_port env_third_free 8000 25 initial_world =
            (Return 8002, snd (find_available_port env_third_free 8000 25 initial_world)))
    by (vm_compute; reflexivity).
  assert (Hpos : 0 < 5) by lia.
  split; [exact Hstatic|]. split; [exact Hrun|]. split; [exact Hpos|].
  exact (find_available_port_fixed_point env_third_free 8000 25 initial_world _ 8002
           Hstatic Hrun 5 initial_world Hpos).
Defined.

Lemma probe_sockets_discipline_kept_witness :
  probe_sockets_ok false (trace initial_world) = true /\
  probe_sockets_ok false (trace (snd (main env_ready sample_args 5 initial_world))) = true.
Proof.
  split; [reflexivity|].
  exact (proj2 (proj2 (probe_sockets_discipline_kept env_ready sample_args 5
                         8000 25 8000 40 150 initial_world eq_refl))).
Defined.

Lemma main_port_exhausted_witness :
  path_exists env_all_busy (resolve env_all_busy (root sample_args)) = true /\
  is_dir env_all_busy (resolve env_all_busy (root sample_args)) = true /\
  (forall j, (j < 25)%nat ->
     connect_ex env_all_busy (clock initial_world + j)
       (localhost, port sample_args + Z.of_nat j) = 0) /\
  fst (main env_all_busy sample_args 0 initial_world) = Raise (PortExhausted 8000).
Proof.
  split; [reflexivity|]. split; [reflexivity|]. split; [intros j Hj; reflexivity|].
  exact (proj1 (main_port_exhausted env_all_busy sample_args 0 initial_world
                  eq_refl eq_refl (fun j Hj => eq_refl))).
Defined.

Lemma thread_exit_takes_cleanup_witness :
  startup env_thread_dies sample_args initial_world =
    (Return (8000, "http://localhost:8000/index.html"),
     snd (startup env_thread_dies sample_args initial_world)) /\
  signal env_thread_dies 1 = ThreadExited /\
  (forall j, (j < 1)%nat -> signal env_thread_dies j = StillAlive) /\
  (1 < 2)%nat /\
  exit_status (fst (main env_thread_dies sample_args 2 initial_world)) = Some 0.
Proof.
  assert (Hstart : startup env_thread_dies sample_args initial_world =
            (Return (8000, "http://localhost:8000/index.html"),
             snd (startup env_thread_dies sample_args initial_world)))
    by (vm_compute; reflexivity).
  assert (Halive : forall j, (j < 1)%nat -> signal env_thread_dies j = StillAlive)
    by (intros [|j] Hj; [reflexivity|lia]).
  assert (Hfuel : (1 < 2)%nat) by lia.
  split; [exact Hstart|]. split; [reflexivity|]. split; [exact Halive|].
  split; [exact Hfuel|].
  exact (proj2 (thread_exit_takes_cleanup env_thread_dies sample_args initial_world
                  _ 8000 _ 1%nat 2%nat Hstart eq_refl Halive Hfuel)).
Defined.

Lemma main_keeps_serving_witness :
  startup env_idle sample_args initial_world =
    (Return (8000, "http://localhost:8000/index.html"),
     snd (startup env_idle sample_args initial_world)) /\
  (forall j, (j < 3)%nat -> signal env_idle j = StillAlive) /\
  exit_status (fst (main env_idle sample_args 3 initial_world)) = None.
Proof.
  assert (Hstart : startup env_idle sample_args initial_world =
            (Return (8000, "http://localhost:8000/index.html"),
             snd (startup env_idle sample_args initial_world)))
    by (vm_compute; reflexivity).
  assert (Halive : forall j, (j < 3)%nat -> signal env_idle j = StillAlive)
    by (intros j Hj; reflexivity).
  split; [exact Hstart|]. split; [exact Halive|].
  exact (proj1 (proj2 (main_keeps_serving env_idle sample_args initial_world
                         _ 8000 _ 3%nat Hstart Halive))).
Defined.
